(** * sqlfluff: meta segments and lint runners

    A shallow embedding of
      - [src/sqlfluff/core/parser/segments/meta.py]  (module [Meta]),
      - [src/sqlfluff/core/linter/runner.py]         (module [Runner]),
    over a small model of the Python runtime pieces they rely on
    (module [Py]): strings as lists of code points, [repr] of a string,
    exception classes with [isinstance], tracebacks as lists of frames
    and results that either return a value or raise. *)

From Stdlib Require Import List NArith ZArith Bool String Ascii Lia Permutation.
Import ListNotations.

Set Implicit Arguments.

(* ===================================================================== *)
(** * The Python runtime model *)
(* ===================================================================== *)

Module Py.

Local Open Scope N_scope.

(** A Python [str] is a sequence of Unicode code points. *)
Definition pystr := list N.

(** String literals of the source, written as Rocq strings. *)
Definition str (s : string) : pystr :=
  map N_of_ascii (list_ascii_of_string s).

Definition pystr_eqb (a b : pystr) : bool :=
  if list_eq_dec N.eq_dec a b then true else false.

(** [sub in s] on strings. *)
Definition contains (sub s : pystr) : Prop :=
  exists pre post, s = pre ++ sub ++ post.

Fixpoint is_prefix (p s : pystr) : bool :=
  match p, s with
  | [], _ => true
  | _ :: _, [] => false
  | a :: p', b :: s' => (a =? b) && is_prefix p' s'
  end.

Fixpoint containsb (sub s : pystr) : bool :=
  is_prefix sub s ||
  match s with
  | [] => false
  | _ :: s' => containsb sub s'
  end.

(** ** [repr] of a [str]

    The conversion [!r] of an f-string calls [repr].  For a string this
    is CPython's [unicode_repr]: the text is wrapped in single quotes,
    or in double quotes when it holds a single quote and no double
    quote; the chosen quote and the backslash are escaped with a
    backslash; tab, newline and carriage return become [\t], [\n],
    [\r]; other non-printable characters become [\xhh], [\uhhhh] or
    [\Uhhhhhhhh].  Which code points above ASCII are printable is
    decided by the Unicode database, the parameter [uprintable]. *)

Definition SQUOTE : N := 39.
Definition DQUOTE : N := 34.
Definition BACKSLASH : N := 92.

Definition hexdigit (d : N) : N :=
  if d <? 10 then 48 + d else 87 + d.

Fixpoint hex_fixed (width : nat) (c : N) : pystr :=
  match width with
  | O => []
  | S w => hex_fixed w (c / 16) ++ [hexdigit (c mod 16)]
  end.

Section Repr.
Variable uprintable : N -> bool.

Definition repr_quote (s : pystr) : N :=
  if existsb (N.eqb SQUOTE) s && negb (existsb (N.eqb DQUOTE) s)
  then DQUOTE else SQUOTE.

Definition repr_char (quote c : N) : pystr :=
  if (c =? quote) || (c =? BACKSLASH) then [BACKSLASH; c]
  else if c =? 9 then [BACKSLASH; 116]
  else if c =? 10 then [BACKSLASH; 110]
  else if c =? 13 then [BACKSLASH; 114]
  else if (c <? 32) || (c =? 127) then BACKSLASH :: 120 :: hex_fixed 2 c
  else if c <? 127 then [c]
  else if uprintable c then [c]
  else if c <=? 255 then BACKSLASH :: 120 :: hex_fixed 2 c
  else if c <=? 65535 then BACKSLASH :: 117 :: hex_fixed 4 c
  else BACKSLASH :: 85 :: hex_fixed 8 c.

Definition repr (s : pystr) : pystr :=
  let q := repr_quote s in
  q :: flat_map (repr_char q) s ++ [q].

(** A character that [repr] copies as it is, whatever the quote. *)
Definition plain_char (c : N) : bool :=
  negb (c =? BACKSLASH) &&
  (((32 <=? c) && (c <? 127)) || ((127 <? c) && uprintable c)).

(** A string that [repr] only wraps in quotes. *)
Definition repr_plain (s : pystr) : bool :=
  forallb plain_char s &&
  negb (existsb (N.eqb SQUOTE) s && existsb (N.eqb DQUOTE) s).
End Repr.

(** ** Exceptions *)

(** The exception classes the two modules name, and user classes
    derived from them by single inheritance. *)
Inductive exc_class :=
| BaseException
| Exception
| OSError
| ValueError
| RuntimeError
| NotImplementedError
| KeyboardInterrupt
| SystemExit
| UserError (name : pystr) (base : exc_class).

(** Since Python 3.3 [IOError] is an alias of [OSError]. *)
Definition IOError : exc_class := OSError.

Fixpoint exc_class_eqb (a b : exc_class) : bool :=
  match a, b with
  | BaseException, BaseException
  | Exception, Exception
  | OSError, OSError
  | ValueError, ValueError
  | RuntimeError, RuntimeError
  | NotImplementedError, NotImplementedError
  | KeyboardInterrupt, KeyboardInterrupt
  | SystemExit, SystemExit => true
  | UserError n1 b1, UserError n2 b2 => pystr_eqb n1 n2 && exc_class_eqb b1 b2
  | _, _ => false
  end.

(** Method resolution order of an exception class. *)
Fixpoint exc_mro (c : exc_class) : list exc_class :=
  match c with
  | BaseException => [BaseException]
  | Exception => [Exception; BaseException]
  | OSError => [OSError; Exception; BaseException]
  | ValueError => [ValueError; Exception; BaseException]
  | RuntimeError => [RuntimeError; Exception; BaseException]
  | NotImplementedError =>
      [NotImplementedError; RuntimeError; Exception; BaseException]
  | KeyboardInterrupt => [KeyboardInterrupt; BaseException]
  | SystemExit => [SystemExit; BaseException]
  | UserError _ b => c :: exc_mro b
  end.

Definition exc_name (c : exc_class) : pystr :=
  match c with
  | BaseException => str "BaseException"
  | Exception => str "Exception"
  | OSError => str "OSError"
  | ValueError => str "ValueError"
  | RuntimeError => str "RuntimeError"
  | NotImplementedError => str "NotImplementedError"
  | KeyboardInterrupt => str "KeyboardInterrupt"
  | SystemExit => str "SystemExit"
  | UserError n _ => n
  end.

(** An exception object: its class and its message ([str(e)]). *)
Record exn := mk_exn { exc_type : exc_class; exc_msg : pystr }.

Definition isinstance (e : exn) (cls : exc_class) : bool :=
  existsb (exc_class_eqb cls) (exc_mro (exc_type e)).

(** ** Tracebacks

    A traceback is the chain of frames an exception went through,
    outermost first; [None] is the empty chain.  A frame is named by
    the function it runs.  An exception that leaves or is caught in a
    frame has that frame put in front of its traceback. *)
Definition newline : pystr := [10].

Definition frame := pystr.
Definition traceback := list frame.

(** The outcome of a call. *)
Inductive result (A : Type) :=
| Return (a : A)
| Raise (e : exn) (tb : traceback).
Arguments Return {A} a.
Arguments Raise {A} e tb.

(** [traceback.format_exc()] for the exception being handled: the
    header, one line per frame, then the class and the message. *)
Definition format_frame (f : frame) : pystr :=
  str "  File <source>, in " ++ f ++ newline.

Definition format_tb (tb : traceback) : pystr :=
  match tb with
  | [] => []
  | _ :: _ =>
      str "Traceback (most recent call last):" ++ newline
      ++ flat_map format_frame tb
  end.

Definition format_exc (e : exn) (tb : traceback) : pystr :=
  format_tb tb ++ exc_name (exc_type e) ++ str ": " ++ exc_msg e ++ newline.

(** A string keyword argument with the default [""]. *)
Definition default_str (x : option pystr) : pystr :=
  match x with Some s => s | None => [] end.

(** [str(x)] for a value that is a string or [None]. *)
Definition str_of_opt (x : option pystr) : pystr :=
  match x with
  | Some s => s
  | None => str "None"
  end.

End Py.

(* ===================================================================== *)
(** * Meta segments ([parser/segments/meta.py]) *)
(* ===================================================================== *)

Module Meta.
Import Py.

(** The classes of the module.  [MetaSegment] derives from
    [RawSegment], which lives in another module. *)
Inductive seg_class := MetaSegment | Indent | Dedent | TemplateSegment.

Definition seg_class_eqb (a b : seg_class) : bool :=
  match a, b with
  | MetaSegment, MetaSegment
  | Indent, Indent
  | Dedent, Dedent
  | TemplateSegment, TemplateSegment => true
  | _, _ => false
  end.

(** [cls.__name__] *)
Definition class_name (c : seg_class) : pystr :=
  match c with
  | MetaSegment => str "MetaSegment"
  | Indent => str "Indent"
  | Dedent => str "Dedent"
  | TemplateSegment => str "TemplateSegment"
  end.

(** The base named in each [class] statement ([None]: the base is
    [RawSegment]). *)
Definition base (c : seg_class) : option seg_class :=
  match c with
  | MetaSegment => None
  | Indent => Some MetaSegment
  | Dedent => Some Indent
  | TemplateSegment => Some MetaSegment
  end.

(** Method resolution order, up to [MetaSegment]. *)
Definition mro (c : seg_class) : list seg_class :=
  match c with
  | MetaSegment => [MetaSegment]
  | Indent => [Indent; MetaSegment]
  | Dedent => [Dedent; Indent; MetaSegment]
  | TemplateSegment => [TemplateSegment; MetaSegment]
  end.

Definition issubclass (c d : seg_class) : bool :=
  existsb (seg_class_eqb d) (mro c).

(** ** Class attributes *)

Inductive attr := a_type | a_is_code | a_template | a_indent_val | a_is_meta.

Inductive pyval :=
| VStr (s : pystr)
| VBool (b : bool)
| VInt (z : Z).

(** The attributes each class body assigns. *)
Definition class_dict (c : seg_class) (a : attr) : option pyval :=
  match c, a with
  | MetaSegment, a_type => Some (VStr (str "meta"))
  | MetaSegment, a_is_code => Some (VBool false)
  | MetaSegment, a_template => Some (VStr (str "<unset>"))
  | MetaSegment, a_indent_val => Some (VInt 0)
  | MetaSegment, a_is_meta => Some (VBool true)
  | Indent, a_type => Some (VStr (str "indent"))
  | Indent, a_indent_val => Some (VInt 1)
  | Dedent, a_type => Some (VStr (str "dedent"))
  | Dedent, a_indent_val => Some (VInt (-1))
  | TemplateSegment, a_type => Some (VStr (str "placeholder"))
  | _, _ => None
  end.

(** Attribute lookup along the method resolution order. *)
Fixpoint lookup_in (cs : list seg_class) (a : attr) : option pyval :=
  match cs with
  | [] => None
  | c :: cs' =>
      match class_dict c a with
      | Some v => Some v
      | None => lookup_in cs' a
      end
  end.

Definition getattr (c : seg_class) (a : attr) : option pyval :=
  lookup_in (mro c) a.

Section Segments.
Variable PositionMarker : Type.
Variable MatchResult : Type.
Variable ParseContext : Type.
Variable uprintable : N -> bool.

(** A segment instance: its class, the literal text and position
    marker kept by [RawSegment], and the two instance attributes
    [TemplateSegment.__init__] assigns. *)
Record segment := mk_segment {
  seg_cls : seg_class;
  raw : pystr;
  pos_marker : option PositionMarker;
  source_str : option pystr;
  block_type : option pystr
}.

Definition isinstance_seg (s : segment) (c : seg_class) : bool :=
  issubclass (seg_cls s) c.

(** Modelled from the spec: [RawSegment.__init__] is in
    [segments/raw.py], outside the sources at hand.  The spec has
    "meta segments always have empty literal text" and
    "Indent/Dedent require only a position marker": the constructor
    keeps the position marker and leaves the literal text empty. *)
Definition RawSegment_init (c : seg_class) (pm : option PositionMarker)
  : segment :=
  {| seg_cls := c; raw := []; pos_marker := pm;
     source_str := None; block_type := None |}.

(** [MetaSegment(pos_marker)], [Indent(pos_marker)] and
    [Dedent(pos_marker)]: these classes define no [__init__]. *)
Definition new_MetaSegment := RawSegment_init MetaSegment.
Definition new_Indent := RawSegment_init Indent.
Definition new_Dedent := RawSegment_init Dedent.

(** [TemplateSegment.__init__(self, pos_marker=None, source_str="",
    block_type="")]; an omitted keyword is [None] here and takes its
    default. *)
Definition TemplateSegment_init
    (pm : option PositionMarker)
    (source_str_arg block_type_arg : option pystr) : result segment :=
  let source_str := default_str source_str_arg in
  let block_type := default_str block_type_arg in
  match source_str with
  | [] =>
      Raise (mk_exn ValueError
               (str "Cannot instantiate TemplateSegment without a source_str."))
            [str "__init__"]
  | _ :: _ =>
      let self := RawSegment_init TemplateSegment pm in
      Return {| seg_cls := seg_cls self; raw := raw self;
                pos_marker := pos_marker self;
                source_str := Some source_str;
                block_type := Some block_type |}
  end.

(** [MetaSegment._suffix] and [TemplateSegment._suffix]. *)
Definition MetaSegment_suffix : pystr := [].

Definition TemplateSegment_suffix (self : segment) : pystr :=
  str "[Type: "
  ++ repr uprintable (match block_type self with Some s => s | None => [] end)
  ++ str ", Raw: "
  ++ repr uprintable (match source_str self with Some s => s | None => [] end)
  ++ str "]".

(** [self._suffix()], resolved on the class of [self]. *)
Definition _suffix (self : segment) : pystr :=
  match seg_cls self with
  | TemplateSegment => TemplateSegment_suffix self
  | MetaSegment | Indent | Dedent => MetaSegment_suffix
  end.

(** The body of [MetaSegment.match]. *)
Definition MetaSegment_match
    (cls : seg_class) (segments : list segment) (parse_context : ParseContext)
  : result MatchResult :=
  Raise (mk_exn NotImplementedError
           (class_name cls
            ++ str " has no match method, it should only be used in a Sequence!"))
        [str "match"].

(** The decorator [match_wrapper()] comes from [parser/match_wrapper.py],
    outside the sources at hand: it is a parameter. *)
Definition match_method :=
  seg_class -> list segment -> ParseContext -> result MatchResult.

Variable match_wrapper : match_method -> match_method.

(** [cls.match(segments, parse_context)]: every class of the module
    inherits the decorated method of [MetaSegment]. *)
Definition match_ : match_method := match_wrapper MetaSegment_match.

End Segments.

End Meta.

(* ===================================================================== *)
(** * Runners ([linter/runner.py]) *)
(* ===================================================================== *)

Module Runner.
Import Py.

(** ** [sys.version_info] *)
Record version_info := mk_version {
  major : Z; minor : Z; micro : Z; releaselevel : pystr; serial : Z
}.

(** [sys.version_info >= (a, b)]: tuples compare component by
    component; when the shorter one is a prefix of the longer, the
    longer is the greater. *)
Definition version_info_ge (v : version_info) (a b : Z) : bool :=
  ((a <? major v) || ((major v =? a) && (b <=? minor v)))%Z.

(** ** The logger [sqlfluff.linter] *)
Record log_record := mk_log {
  levelname : pystr;
  msg : pystr;
  args : list Z
}.

Definition warning (m : pystr) (a : list Z) : log_record :=
  {| levelname := str "WARNING"; msg := m; args := a |}.

(** ** The runner classes *)
Inductive runner_class :=
| BaseRunner
| SequentialRunner
| ParallelRunner
| MultiProcessRunner
| MultiThreadRunner.

Definition runner_mro (c : runner_class) : list runner_class :=
  match c with
  | BaseRunner => [BaseRunner]
  | SequentialRunner => [SequentialRunner; BaseRunner]
  | ParallelRunner => [ParallelRunner; BaseRunner]
  | MultiProcessRunner => [MultiProcessRunner; ParallelRunner; BaseRunner]
  | MultiThreadRunner => [MultiThreadRunner; ParallelRunner; BaseRunner]
  end.

(** The class bodies that assign [pass_formatter]. *)
Definition pass_formatter_dict (c : runner_class) : option bool :=
  match c with
  | BaseRunner => Some true
  | ParallelRunner => Some false
  | _ => None
  end.

Fixpoint lookup_pass_formatter (cs : list runner_class) : bool :=
  match cs with
  | [] => false
  | c :: cs' =>
      match pass_formatter_dict c with
      | Some b => b
      | None => lookup_pass_formatter cs'
      end
  end.

(** [self.pass_formatter] *)
Definition pass_formatter (c : runner_class) : bool :=
  lookup_pass_formatter (runner_mro c).

(** [MAP_FUNCTION_NAME] of the two concrete parallel runners. *)
Definition MAP_FUNCTION_NAME (c : runner_class) : option pystr :=
  match c with
  | MultiProcessRunner => Some (str "imap_unordered")
  | MultiThreadRunner => Some (str "imap")
  | _ => None
  end.

(** Frames of the functions of this module. *)
Definition fr_run : frame := str "run".
Definition fr_iter_rendered : frame := str "iter_rendered".
Definition fr_iter_partials : frame := str "iter_partials".
Definition fr_handle : frame := str "_handle_lint_path_exception".
Definition fr_apply : frame := str "_apply".
Definition fr_reraise : frame := str "reraise".
Definition fr_next : frame := str "next".

(** ** [DelayedException] *)
Record DelayedException := mk_delayed {
  ee : exn;
  tb : traceback;
  fname : option pystr;
  delayed_msg : pystr
}.

(** [DelayedException.__init__(self, ee, fname=None)].  [exc_info] is
    what [sys.exc_info()] returns: the exception being handled and its
    traceback, if any. *)
Definition DelayedException_init
    (exc_info : option (exn * traceback)) (ee_arg : exn)
    (fname_arg : option pystr) : DelayedException :=
  {| ee := ee_arg;
     tb := match exc_info with Some (_, t) => t | None => [] end;
     fname := None;
     delayed_msg := exc_msg ee_arg |}.

(** [DelayedException.reraise]: [raise self.ee.with_traceback(self.tb)]. *)
Definition reraise (self : DelayedException) : result Empty_set :=
  Raise (ee self) (fr_reraise :: tb self).

Section Collaborators.
(** The collaborators of the runner: configuration, rendered files,
    rule sets, linted files and the formatter. *)
Variables Config RenderedFile RuleSet LintedFile Formatter : Type.
Variable rendered_config : RenderedFile -> Config.
Variable linted_path : LintedFile -> pystr.

Record Linter := mk_linter {
  render_file : pystr -> Config -> result RenderedFile;
  get_ruleset : Config -> RuleSet;
  lint_rendered :
    RenderedFile -> RuleSet -> bool -> option Formatter -> result LintedFile;
  formatter : option Formatter
}.

(** A runner instance. *)
Record runner := mk_runner {
  cls : runner_class;
  linter : Linter;
  config : Config;
  parallel : option Z
}.

(** [functools.partial(func, rendered, rule_set, fix, formatter)] *)
Record partial := mk_partial {
  p_func :
    RenderedFile -> RuleSet -> bool -> option Formatter -> result LintedFile;
  p_rendered : RenderedFile;
  p_rule_set : RuleSet;
  p_fix : bool;
  p_formatter : option Formatter
}.

(** [partial()] *)
Definition call_partial (p : partial) : result LintedFile :=
  p_func p (p_rendered p) (p_rule_set p) (p_fix p) (p_formatter p).

(** One step of the generator [iter_rendered]. *)
Definition iter_rendered (self : runner) (fname_ : pystr)
  : result (pystr * RenderedFile) :=
  match render_file (linter self) fname_ (config self) with
  | Return rendered => Return (fname_, rendered)
  | Raise e t => Raise e (fr_iter_rendered :: t)
  end.

(** One step of the generator [iter_partials]. *)
Definition iter_partials (self : runner) (fix_ : bool) (fname_ : pystr)
  : result (pystr * partial) :=
  match iter_rendered self fname_ with
  | Raise e t => Raise e (fr_iter_partials :: t)
  | Return (fname', rendered) =>
      let rule_set := get_ruleset (linter self) (rendered_config rendered) in
      Return (fname',
              {| p_func := lint_rendered (linter self);
                 p_rendered := rendered;
                 p_rule_set := rule_set;
                 p_fix := fix_;
                 p_formatter :=
                   if pass_formatter (cls self)
                   then formatter (linter self) else None |})
  end.

(** ** What a run does to its surroundings *)
Record world := mk_world {
  yielded : list LintedFile;
  log : list log_record;
  stdout : list pystr;
  dispatched : list (pystr * LintedFile * bool);
  pool_terminated : nat
}.

Definition empty_world : world :=
  {| yielded := []; log := []; stdout := []; dispatched := [];
     pool_terminated := 0 |}.

Definition do_yield (r : LintedFile) (w : world) : world :=
  {| yielded := yielded w ++ [r]; log := log w; stdout := stdout w;
     dispatched := dispatched w; pool_terminated := pool_terminated w |}.

(** Yielding a list of results, one after the other. *)
Definition yield_all (rs : list LintedFile) (w : world) : world :=
  fold_left (fun w r => do_yield r w) rs w.

Definition do_log (l : log_record) (w : world) : world :=
  {| yielded := yielded w; log := log w ++ [l]; stdout := stdout w;
     dispatched := dispatched w; pool_terminated := pool_terminated w |}.

Definition do_print (s : pystr) (w : world) : world :=
  {| yielded := yielded w; log := log w; stdout := stdout w ++ [s];
     dispatched := dispatched w; pool_terminated := pool_terminated w |}.

Definition do_dispatch (d : pystr * LintedFile * bool) (w : world) : world :=
  {| yielded := yielded w; log := log w; stdout := stdout w;
     dispatched := dispatched w ++ [d];
     pool_terminated := pool_terminated w |}.

(** [pool.terminate()] *)
Definition do_terminate (w : world) : world :=
  {| yielded := yielded w; log := log w; stdout := stdout w;
     dispatched := dispatched w;
     pool_terminated := S (pool_terminated w) |}.

(** How the generator [run] ends: its loop is exhausted, it has
    shut the pool down after an interrupt, or an exception leaves
    it. *)
Inductive outcome :=
| Exhausted
| ShutDown
| Propagated (e : exn) (t : traceback).

(** The text of the warning of [_handle_lint_path_exception]. *)
Definition lint_warning_text (fname_ : option pystr) (e : exn)
    (t : traceback) : pystr :=
  str "Unable to lint " ++ str_of_opt fname_
  ++ str " due to an internal error. "
  ++ str "Please report this as an issue with your query's contents and stacktrace below!"
  ++ newline
  ++ str "To hide this warning, add the failing file to .sqlfluffignore"
  ++ newline
  ++ format_exc e t.

(** [_handle_lint_path_exception(fname, e)], called while [e] with
    traceback [t] is being handled. *)
Definition _handle_lint_path_exception
    (fname_ : option pystr) (e : exn) (t : traceback) (w : world)
  : world * result unit :=
  if isinstance e IOError then (w, Raise e (fr_handle :: t))
  else (do_log (warning (lint_warning_text fname_ e t) []) w, Return tt).

(** ** [SequentialRunner.run] *)
Fixpoint SequentialRunner_run (self : runner) (fnames : list pystr)
    (fix_ : bool) (w : world) : world * outcome :=
  match fnames with
  | [] => (w, Exhausted)
  | f :: rest =>
      match iter_partials self fix_ f with
      | Raise e t => (w, Propagated e (fr_run :: t))
      | Return (fname_, partial_) =>
          match call_partial partial_ with
          | Return r => SequentialRunner_run self rest fix_ (do_yield r w)
          | Raise e t0 =>
              let t := fr_run :: t0 in
              if isinstance e Exception then
                match _handle_lint_path_exception (Some fname_) e t w with
                | (w', Return _) => SequentialRunner_run self rest fix_ w'
                | (w', Raise e' t') => (w', Propagated e' (fr_run :: t'))
                end
              else (w, Propagated e t)
          end
      end
  end.

(** ** [ParallelRunner] *)

(** [ParallelRunner._apply(partial_tuple)], run by a worker. *)
Definition _apply (partial_tuple : pystr * partial)
  : result (LintedFile + DelayedException) :=
  let (fname_, partial_) := partial_tuple in
  match call_partial partial_ with
  | Return r => Return (inl r)
  | Raise e t0 =>
      let t := fr_apply :: t0 in
      if isinstance e Exception
      then Return (inr (DelayedException_init (Some (e, t)) e (Some fname_)))
      else Raise e t
  end.

(** What the controller unpickles when a worker process sends back a
    [DelayedException].  Pickling is done by the [pickle] module and,
    for the traceback, by the reducer that
    [tblib.pickling_support.install()] registers in
    [core/__init__.py]; both are outside this repository. *)
Variable pickled : DelayedException -> DelayedException.

(** A result crosses a process boundary only with the process pool;
    the threads of [multiprocessing.dummy.Pool] hand over the object
    itself. *)
Definition transport (self : runner) (x : LintedFile + DelayedException)
  : LintedFile + DelayedException :=
  match cls self, x with
  | MultiProcessRunner, inr d => inr (pickled d)
  | _, _ => x
  end.

(** What the controller meets when it asks the iterator returned by
    [_map] for its next item: the result of the work unit of some
    file (which one is for the pool to say: [imap] keeps the order of
    submission, [imap_unordered] the order of completion), or a
    keyboard interrupt delivered while it waits.  An arrival that
    names no file is no event. *)
Inductive pool_event :=
| Arrives (i : nat)
| Interrupt.

Definition pool_next (self : runner) (fnames : list pystr) (fix_ : bool)
    (ev : pool_event) : option (result (LintedFile + DelayedException)) :=
  match ev with
  | Interrupt => Some (Raise (mk_exn KeyboardInterrupt []) [fr_next])
  | Arrives i =>
      match nth_error fnames i with
      | None => None
      | Some f =>
          Some match iter_partials self fix_ f with
               | Raise e t => Raise e (fr_next :: t)
               | Return pt =>
                   match _apply pt with
                   | Return x => Return (transport self x)
                   | Raise e t => Raise e (fr_next :: t)
                   end
               end
      end
  end.

Definition interrupt_message : pystr :=
  str "Received keyboard interrupt. Cleaning up and shutting down...".

(** The clause [except KeyboardInterrupt] around the loop, for an
    exception [e] that leaves the loop. *)
Definition on_exception (e : exn) (t : traceback) (w : world)
  : world * outcome :=
  if isinstance e KeyboardInterrupt
  then (do_terminate (do_print interrupt_message w), ShutDown)
  else (w, Propagated e t).

(** The [try] statement of [ParallelRunner.run]. *)
Fixpoint ParallelRunner_collect (self : runner) (fnames : list pystr)
    (fix_ : bool) (events : list pool_event) (w : world)
  : world * outcome :=
  match events with
  | [] => (w, Exhausted)
  | ev :: rest =>
      match pool_next self fnames fix_ ev with
      | None => ParallelRunner_collect self fnames fix_ rest w
      | Some (Raise e t) => on_exception e (fr_run :: t) w
      | Some (Return (inr lint_result)) =>
          match reraise lint_result with
          | Return v => match v with end
          | Raise e t0 =>
              let t := fr_run :: t0 in
              if isinstance e Exception then
                match _handle_lint_path_exception (fname lint_result) e t w with
                | (w', Return _) =>
                    ParallelRunner_collect self fnames fix_ rest w'
                | (w', Raise e' t') => on_exception e' (fr_run :: t') w'
                end
              else on_exception e t w
          end
      | Some (Return (inl lint_result)) =>
          let w1 :=
            match formatter (linter self) with
            | Some _ => do_dispatch (linted_path lint_result, lint_result, fix_) w
            | None => w
            end in
          ParallelRunner_collect self fnames fix_ rest (do_yield lint_result w1)
      end
  end.

(** [ParallelRunner.run]: the [with] statement terminates the pool
    when it is left, however it is left. *)
Definition ParallelRunner_run (self : runner) (fnames : list pystr)
    (fix_ : bool) (events : list pool_event) (w : world)
  : world * outcome :=
  let (w', o) := ParallelRunner_collect self fnames fix_ events w in
  (do_terminate w', o).

(** ** [get_runner] *)
Definition unsupported_message : pystr :=
  str "Parallel linting is not supported in Python %s.%s.".

(** [get_runner(linter, config, parallel, allow_process_parallelism=True)]
    under the interpreter [v]: the runner and what was logged. *)
Definition get_runner (linter_ : Linter) (config_ : Config) (parallel_ : Z)
    (allow_process_parallelism : option bool) (v : version_info)
  : runner * list log_record :=
  let allow :=
    match allow_process_parallelism with Some b => b | None => true end in
  if (1 <? parallel_)%Z && version_info_ge v 3 7 then
    if allow
    then (mk_runner MultiProcessRunner linter_ config_ (Some parallel_), [])
    else (mk_runner MultiThreadRunner linter_ config_ (Some parallel_), [])
  else
    (mk_runner SequentialRunner linter_ config_ None,
     if (1 <? parallel_)%Z
     then [warning unsupported_message [major v; minor v]]
     else []).

End Collaborators.

End Runner.

(* ===================================================================== *)
(** * Concrete collaborators *)
(* ===================================================================== *)

Module Demo.
Import Py Runner.

(** A Unicode table that calls nothing above ASCII printable. *)
Definition ascii_only (c : N) : bool := false.

(** A decorator that calls the method and marks its own frame on the
    way out of an exception. *)
Definition plain_match_wrapper
    (f : Meta.match_method unit unit unit) : Meta.match_method unit unit unit :=
  fun c segs ctx =>
    match f c segs ctx with
    | Return m => Return m
    | Raise e t => Raise e (str "wrapped_match_method" :: t)
    end.

(** A linter whose rendered file and linted file are the file name;
    linting [bad.sql] raises a [ValueError], linting [gone.sql] an
    [IOError]. *)
Definition boom : exn := mk_exn ValueError (str "boom").
Definition gone : exn := mk_exn IOError (str "No such file").

Definition demo_lint (rendered : pystr) (rule_set : unit) (fix_ : bool)
    (fmt : option unit) : result pystr :=
  if pystr_eqb rendered (str "bad.sql") then Raise boom [str "lint_rendered"]
  else if pystr_eqb rendered (str "gone.sql") then Raise gone [str "lint_rendered"]
  else Return rendered.

Definition demo_linter : Linter unit pystr unit pystr unit :=
  {| render_file := fun f _ => Return f;
     get_ruleset := fun _ => tt;
     lint_rendered := demo_lint;
     formatter := Some tt |}.

Definition demo_config (rendered : pystr) : unit := tt.
Definition demo_path (linted : pystr) : pystr := linted.

Definition demo_runner (c : runner_class)
  : runner unit pystr unit pystr unit :=
  mk_runner c demo_linter tt
    match c with
    | MultiProcessRunner | MultiThreadRunner => Some 4%Z
    | _ => None
    end.

Definition demo_partial (f : pystr) (fmt : option unit)
  : partial pystr unit pystr unit :=
  {| p_func := demo_lint; p_rendered := f; p_rule_set := tt;
     p_fix := false; p_formatter := fmt |}.

(** Pickling that gives back an equal envelope. *)
Definition demo_pickled (d : DelayedException) : DelayedException := d.

Definition demo_world : world pystr := empty_world pystr.

Definition py36 : version_info := mk_version 3 6 9 (str "final") 0.
Definition py39 : version_info := mk_version 3 9 1 (str "final") 0.

End Demo.

(* ===================================================================== *)
(** * Predicates used to state properties *)
(* ===================================================================== *)

Module Props.
Import Py Runner.

(** A character that is neither an ASCII control character nor DEL. *)
Definition visible (c : N) : bool := ((32 <=? c) && negb (c =? 127))%N.

(** Code points go up to U+10FFFF. *)
Definition valid_codepoint (c : N) : bool := (c <? 1114112)%N.

Definition valid_str (s : pystr) : bool := forallb valid_codepoint s.

(** The events of a pool that hands back the results of [n] files in the
    order of submission, as [imap] does. *)
Definition submission_order (n : nat) : list pool_event :=
  map Arrives (seq 0 n).

(** The files whose results arrive, for a list of arrival indices. *)
Definition files_at (fnames : list pystr) (order : list nat) : list pystr :=
  flat_map (fun i => match nth_error fnames i with
                     | Some f => [f]
                     | None => []
                     end) order.

(** The arrivals of a stream of events that name a file. *)
Definition arrivals (fnames : list pystr) (events : list pool_event) : nat :=
  List.length
    (filter (fun ev => match ev with
                       | Arrives i =>
                           match nth_error fnames i with
                           | Some _ => true
                           | None => false
                           end
                       | Interrupt => false
                       end) events).

(** A linter like the one of [Demo] that cannot render [missing.sql]. *)
Definition template_error : exn :=
  mk_exn (UserError (str "SQLTemplaterError") ValueError) (str "undefined variable").

Definition strict_linter : Linter unit pystr unit pystr unit :=
  {| render_file := fun f _ =>
       if pystr_eqb f (str "missing.sql")
       then Raise template_error [str "render_file"]
       else Return f;
     get_ruleset := fun _ => tt;
     lint_rendered := Demo.demo_lint;
     formatter := Some tt |}.

Definition strict_runner (c : runner_class)
  : runner unit pystr unit pystr unit :=
  mk_runner c strict_linter tt None.

End Props.

(* ===================================================================== *)
(** * Facts about the runtime model *)
(* ===================================================================== *)

Import Py.

Lemma is_prefix_spec (p s : pystr) :
  is_prefix p s = true <-> exists post, s = p ++ post.
Proof.
  revert s; induction p as [|a p IH]; intros s; simpl.
  - split; [intros _; now exists s | reflexivity].
  - destruct s as [|b s].
    + split; [discriminate | intros [post H]; discriminate].
    + rewrite andb_true_iff, N.eqb_eq, IH. split.
      * intros [-> [post ->]]. now exists post.
      * intros [post H]. injection H as -> ->. split; [reflexivity | now exists post].
Qed.

Lemma containsb_spec (sub s : pystr) :
  containsb sub s = true <-> contains sub s.
Proof.
  unfold contains. induction s as [|b s IH]; simpl.
  - rewrite orb_false_r, is_prefix_spec. split.
    + intros [post H]. exists [], post. exact H.
    + intros [pre [post H]]. destruct pre; simpl in H.
      * now exists post.
      * discriminate.
  - rewrite orb_true_iff, is_prefix_spec, IH. split.
    + intros [[post H] | [pre [post H]]].
      * exists [], post. exact H.
      * exists (b :: pre), post. simpl. now rewrite H.
    + intros [pre [post H]]. destruct pre as [|c pre]; simpl in H.
      * left. now exists post.
      * right. injection H as _ H. now exists pre, post.
Qed.

Lemma contains_middle (a sub b : pystr) : contains sub (a ++ sub ++ b).
Proof. now exists a, b. Qed.

Lemma contains_trans (a b c : pystr) :
  contains a b -> contains b c -> contains a c.
Proof.
  intros [p1 [q1 ->]] [p2 [q2 ->]].
  exists (p2 ++ p1), (q1 ++ q2). now rewrite <- !app_assoc.
Qed.

Lemma contains_app_l (sub a b : pystr) : contains sub a -> contains sub (a ++ b).
Proof.
  intros [p [q ->]]. exists p, (q ++ b). now rewrite <- !app_assoc.
Qed.

Lemma contains_app_r (sub a b : pystr) : contains sub b -> contains sub (a ++ b).
Proof.
  intros [p [q ->]]. exists (a ++ p), q. now rewrite <- !app_assoc.
Qed.

Create HintDb pystr.
#[local] Hint Resolve contains_middle contains_app_l contains_app_r : pystr.

Section ReprFacts.
Variable uprintable : N -> bool.

Lemma repr_char_plain (q c : N) :
  plain_char uprintable c = true -> c <> q -> repr_char uprintable q c = [c].
Proof.
  unfold plain_char, repr_char, BACKSLASH. intros Hp Hq.
  apply andb_true_iff in Hp as [Hb Hp].
  apply negb_true_iff in Hb. rewrite Hb.
  apply N.eqb_neq in Hq. rewrite Hq. simpl.
  apply orb_true_iff in Hp as [Hp | Hp]; apply andb_true_iff in Hp as [H1 H2].
  - apply N.leb_le in H1. apply N.ltb_lt in H2.
    assert (E9 : (c =? 9)%N = false) by (apply N.eqb_neq; lia).
    assert (E10 : (c =? 10)%N = false) by (apply N.eqb_neq; lia).
    assert (E13 : (c =? 13)%N = false) by (apply N.eqb_neq; lia).
    assert (E32 : (c <? 32)%N = false) by (apply N.ltb_ge; lia).
    assert (E127 : (c =? 127)%N = false) by (apply N.eqb_neq; lia).
    assert (L127 : (c <? 127)%N = true) by (apply N.ltb_lt; lia).
    now rewrite E9, E10, E13, E32, E127, L127.
  - apply N.ltb_lt in H1.
    assert (E9 : (c =? 9)%N = false) by (apply N.eqb_neq; lia).
    assert (E10 : (c =? 10)%N = false) by (apply N.eqb_neq; lia).
    assert (E13 : (c =? 13)%N = false) by (apply N.eqb_neq; lia).
    assert (E32 : (c <? 32)%N = false) by (apply N.ltb_ge; lia).
    assert (E127 : (c =? 127)%N = false) by (apply N.eqb_neq; lia).
    assert (L127 : (c <? 127)%N = false) by (apply N.ltb_ge; lia).
    now rewrite E9, E10, E13, E32, E127, L127, H2.
Qed.

Lemma flat_map_repr_char_plain (q : N) (s : pystr) :
  forallb (plain_char uprintable) s = true ->
  existsb (N.eqb q) s = false ->
  flat_map (repr_char uprintable q) s = s.
Proof.
  induction s as [|c s IH]; simpl; [reflexivity |].
  intros Hp Hq.
  apply andb_true_iff in Hp as [Hc Hs].
  apply orb_false_iff in Hq as [Hqc Hqs].
  rewrite repr_char_plain; [simpl; now rewrite IH | assumption |].
  apply N.eqb_neq in Hqc. congruence.
Qed.

(** [repr] only wraps a plain string in quotes. *)
Lemma repr_of_plain (s : pystr) :
  repr_plain uprintable s = true ->
  repr uprintable s = repr_quote s :: s ++ [repr_quote s].
Proof.
  unfold repr_plain, repr. intros H.
  apply andb_true_iff in H as [Hp Hq]. apply negb_true_iff in Hq.
  rewrite flat_map_repr_char_plain; [reflexivity | assumption |].
  unfold repr_quote.
  destruct (existsb (N.eqb SQUOTE) s) eqn:Es;
    destruct (existsb (N.eqb DQUOTE) s) eqn:Ed; simpl in *;
    try assumption; try discriminate.
Qed.

Lemma repr_plain_contains (s : pystr) :
  repr_plain uprintable s = true -> contains s (repr uprintable s).
Proof.
  intros H. rewrite (repr_of_plain _ H).
  exists [repr_quote s], [repr_quote s]. reflexivity.
Qed.
End ReprFacts.

(* ===================================================================== *)
(** * Meta segments *)
(* ===================================================================== *)

Section MetaFacts.
Import Meta.
Variable PositionMarker : Type.
Variable uprintable : N -> bool.

Lemma TemplateSegment_init_empty (pm : option PositionMarker) bt :
  TemplateSegment_init pm (Some []) bt =
  Raise (mk_exn ValueError
           (str "Cannot instantiate TemplateSegment without a source_str."))
        [str "__init__"]
  /\ TemplateSegment_init pm None bt = TemplateSegment_init pm (Some []) bt.
Proof. split; reflexivity. Qed.

Lemma TemplateSegment_init_nonempty (pm : option PositionMarker) src bt :
  src <> [] ->
  TemplateSegment_init pm (Some src) bt =
  Return {| seg_cls := TemplateSegment; raw := []; pos_marker := pm;
            source_str := Some src; block_type := Some (default_str bt) |}.
Proof.
  intros H. unfold TemplateSegment_init.
  destruct src as [|c src]; [congruence | reflexivity].
Qed.

Lemma TemplateSegment_suffix_shape (pm : option PositionMarker) src btv :
  _suffix uprintable
    {| seg_cls := TemplateSegment; raw := []; pos_marker := pm;
       source_str := Some src; block_type := Some btv |}
  = str "[Type: " ++ repr uprintable btv ++ str ", Raw: "
    ++ repr uprintable src ++ str "]".
Proof. reflexivity. Qed.


Section Match.
Variable MatchResult : Type.
Variable ParseContext : Type.
Variable match_wrapper :
  match_method PositionMarker MatchResult ParseContext ->
  match_method PositionMarker MatchResult ParseContext.

(** The decorator lets an exception of the decorated method through:
    it calls the method and has no handler around the call. *)
Hypothesis match_wrapper_lets_through :
  forall f c segs ctx e t,
    f c segs ctx = Raise e t ->
    exists t', match_wrapper f c segs ctx = Raise e t'.

(** C8.  [match] on a meta segment of any of the four classes raises
    [NotImplementedError] naming the class; it returns no match
    result at all, so in particular not the unmatched one. *)
Theorem meta_match_raises
    (self : segment PositionMarker)
    (segments : list (segment PositionMarker)) (ctx : ParseContext) :
  (exists t,
     match_ match_wrapper (seg_cls self) segments ctx =
     Raise (mk_exn NotImplementedError
              (class_name (seg_cls self)
               ++ str " has no match method, it should only be used in a Sequence!"))
           t)
  /\ (forall m : MatchResult,
        match_ match_wrapper (seg_cls self) segments ctx <> Return m)
  /\ (forall e t,
        match_ match_wrapper (seg_cls self) segments ctx = Raise e t ->
        isinstance e NotImplementedError = true).
Proof.
  destruct (match_wrapper_lets_through
              (@MetaSegment_match PositionMarker MatchResult ParseContext)
              (seg_cls self) segments ctx eq_refl) as [t Ht].
  unfold match_. rewrite Ht. repeat split.
  - now exists t.
  - discriminate.
  - intros e t0 H. injection H as <- _. reflexivity.
Qed.
End Match.

(** C10.  [Dedent] is a subclass of [Indent], so whatever is selected
    as an instance of [Indent] includes every [Dedent]; the two
    classes differ in [type] and in the sign of [indent_val] and agree
    on the other attributes; both are meta and a new instance of
    either has empty literal text and an empty suffix. *)
Theorem Dedent_is_an_Indent (pm : option PositionMarker) :
  base Dedent = Some Indent
  /\ issubclass Dedent Indent = true
  /\ isinstance_seg (new_Dedent pm) Indent = true
  /\ (forall s : segment PositionMarker,
        isinstance_seg s Dedent = true -> isinstance_seg s Indent = true)
  /\ (forall segs : list (segment PositionMarker),
        incl (filter (fun s => isinstance_seg s Dedent) segs)
             (filter (fun s => isinstance_seg s Indent) segs))
  /\ getattr Indent a_type = Some (VStr (str "indent"))
  /\ getattr Dedent a_type = Some (VStr (str "dedent"))
  /\ getattr Indent a_indent_val = Some (VInt 1)
  /\ getattr Dedent a_indent_val = Some (VInt (-1))
  /\ (forall a, a <> a_type -> a <> a_indent_val ->
        getattr Dedent a = getattr Indent a)
  /\ getattr Indent a_is_meta = Some (VBool true)
  /\ getattr Dedent a_is_meta = Some (VBool true)
  /\ raw (new_Indent pm) = [] /\ raw (new_Dedent pm) = []
  /\ _suffix uprintable (new_Indent pm) = []
  /\ _suffix uprintable (new_Dedent pm) = [].
Proof.
  assert (Hsub : forall s : segment PositionMarker,
             isinstance_seg s Dedent = true -> isinstance_seg s Indent = true).
  { intros s. unfold isinstance_seg. destruct (seg_cls s); cbv; congruence. }
  repeat split; try reflexivity; try assumption.
  - intros segs s Hin. apply filter_In in Hin as [Hin Hd].
    apply filter_In. split; [assumption | now apply Hsub].
  - intros a H1 H2. destruct a; try reflexivity; congruence.
Qed.

End MetaFacts.

(** ** Concrete instances *)



Lemma meta_match_raises_witness :
  exists t,
    Meta.match_ Demo.plain_match_wrapper Meta.Dedent [] tt =
    Raise (mk_exn NotImplementedError
             (str "Dedent has no match method, it should only be used in a Sequence!"))
          t.
Proof.
  refine (proj1 (@meta_match_raises unit unit unit Demo.plain_match_wrapper _
                   (Meta.new_Dedent None) [] tt)).
  intros f c segs ctx e t H. unfold Demo.plain_match_wrapper. rewrite H.
  eexists. reflexivity.
Defined.

Lemma Dedent_is_an_Indent_witness :
  Meta.isinstance_seg (Meta.new_Dedent (@None unit)) Meta.Indent = true
  /\ Meta.getattr Meta.Dedent Meta.a_is_code = Meta.getattr Meta.Indent Meta.a_is_code.
Proof.
  destruct (Dedent_is_an_Indent Demo.ascii_only (@None unit))
    as (_ & _ & _ & Hsub & _ & _ & _ & _ & _ & Hattr & _).
  split.
  - apply Hsub. reflexivity.
  - apply Hattr; discriminate.
Defined.

(* ===================================================================== *)
(** * Runners *)
(* ===================================================================== *)

Lemma isinstance_IOError_Exception (e : exn) :
  isinstance e IOError = true -> isinstance e Exception = true.
Proof.
  unfold isinstance. destruct e as [c m]. simpl.
  induction c; simpl; try discriminate; try reflexivity.
  intros H. apply IHc. exact H.
Qed.

Lemma isinstance_IOError_not_interrupt (e : exn) :
  isinstance e IOError = true -> isinstance e KeyboardInterrupt = false.
Proof.
  unfold isinstance. destruct e as [c m]. simpl.
  induction c; simpl; try discriminate; try reflexivity.
  intros H. apply IHc. exact H.
Qed.

Section RunnerFacts.
Import Runner.
Variables Config RenderedFile RuleSet LintedFile Formatter : Type.
Variable rendered_config : RenderedFile -> Config.
Variable linted_path : LintedFile -> pystr.

Let runner := runner Config RenderedFile RuleSet LintedFile Formatter.
Let world := world LintedFile.
Let seq_run := @SequentialRunner_run Config RenderedFile RuleSet LintedFile
                 Formatter rendered_config.

(** [iter_partials] hands back the file name it was given. *)
Lemma iter_partials_fname (self : runner) fix_ f f' p :
  iter_partials rendered_config self fix_ f = Return (f', p) -> f' = f.
Proof.
  unfold iter_partials, iter_rendered.
  destruct (render_file _ _ _); [| discriminate].
  intros H. now injection H as <- _.
Qed.

(** The formatter of a work unit. *)
Lemma iter_partials_formatter (self : runner) fix_ f f' p :
  iter_partials rendered_config self fix_ f = Return (f', p) ->
  p_formatter p =
  if pass_formatter (cls self) then formatter (linter self) else None.
Proof.
  unfold iter_partials, iter_rendered.
  destruct (render_file _ _ _); [| discriminate].
  intros H. now injection H as _ <-.
Qed.

(** A run over [pre ++ rest] is the run over [pre], carried on over
    [rest] when the first has gone through its files. *)
Lemma SequentialRunner_run_app (self : runner) fix_ pre rest (w : world) :
  seq_run self (pre ++ rest) fix_ w =
  match seq_run self pre fix_ w with
  | (w1, Exhausted) => seq_run self rest fix_ w1
  | r => r
  end.
Proof.
  subst seq_run. revert w. induction pre as [|f pre IH]; intros w; simpl.
  - reflexivity.
  - destruct (iter_partials rendered_config self fix_ f) as [[f' p]|e t];
      [| reflexivity].
    destruct (call_partial p) as [r|e t0]; [apply IH |].
    destruct (isinstance e Exception); [| reflexivity].
    unfold _handle_lint_path_exception.
    destruct (isinstance e IOError); [reflexivity | apply IH].
Qed.

Lemma yield_all_fields rs (w : world) :
  yielded (yield_all rs w) = yielded w ++ rs
  /\ log (yield_all rs w) = log w
  /\ stdout (yield_all rs w) = stdout w
  /\ dispatched (yield_all rs w) = dispatched w
  /\ pool_terminated (yield_all rs w) = pool_terminated w.
Proof.
  revert w. induction rs as [|r rs IH]; intros w; simpl.
  - now rewrite app_nil_r.
  - destruct (IH (do_yield r w)) as (H1 & H2 & H3 & H4 & H5).
    unfold yield_all in *. rewrite H1, H2, H3, H4, H5. simpl.
    now rewrite <- app_assoc.
Qed.

(** When every work unit returns, the run yields the results in the
    order of the file names. *)
Lemma SequentialRunner_run_all_return (self : runner) fix_
    (rs : pystr -> LintedFile) fnames (w : world) :
  (forall f, In f fnames ->
     exists p, iter_partials rendered_config self fix_ f = Return (f, p)
               /\ call_partial p = Return (rs f)) ->
  seq_run self fnames fix_ w = (yield_all (map rs fnames) w, Exhausted).
Proof.
  subst seq_run. revert w. induction fnames as [|f l IH]; intros w H; simpl.
  - reflexivity.
  - destruct (H f (or_introl eq_refl)) as (p & Hp & Hr).
    rewrite Hp, Hr. apply IH. intros g Hg. apply H. now right.
Qed.


(** C5.  In a sequential run, when the work unit of a file [F] raises
    an I/O error, that very exception leaves the run; the run is then
    where it was when it came to [F]: the results yielded and the
    warnings logged are those of the files before [F], and the files
    after [F] are not touched. *)
Theorem SequentialRunner_io_failure
    (self : runner) (fix_ : bool) (pre post : list pystr) (F : pystr)
    (pF : partial RenderedFile RuleSet LintedFile Formatter)
    (e : exn) (t0 : traceback) (w w1 : world) :
  seq_run self pre fix_ w = (w1, Exhausted) ->
  iter_partials rendered_config self fix_ F = Return (F, pF) ->
  call_partial pF = Raise e t0 ->
  isinstance e IOError = true ->
  seq_run self (pre ++ F :: post) fix_ w =
  (w1, Propagated e (fr_run :: fr_handle :: fr_run :: t0)).
Proof.
  intros Hpre HF Hraise Hio.
  rewrite SequentialRunner_run_app, Hpre. subst seq_run. simpl.
  rewrite HF, Hraise, (isinstance_IOError_Exception _ Hio).
  unfold _handle_lint_path_exception. now rewrite Hio.
Qed.

(** ** Parallel runs *)

Variable pickled : DelayedException -> DelayedException.

Let collect := @ParallelRunner_collect Config RenderedFile RuleSet LintedFile
                 Formatter rendered_config linted_path pickled.
Let par_run := @ParallelRunner_run Config RenderedFile RuleSet LintedFile
                 Formatter rendered_config linted_path pickled.

Lemma ParallelRunner_collect_app (self : runner) fnames fix_ pre rest
    (w : world) :
  collect self fnames fix_ (pre ++ rest) w =
  match collect self fnames fix_ pre w with
  | (w1, Exhausted) => collect self fnames fix_ rest w1
  | r => r
  end.
Proof.
  subst collect. revert w. induction pre as [|ev pre IH]; intros w; simpl.
  - reflexivity.
  - destruct (pool_next rendered_config pickled self fnames fix_ ev)
      as [[[r|d]|e t]|]; try apply IH.
    + destruct (isinstance (ee d) Exception).
      * unfold _handle_lint_path_exception.
        destruct (isinstance (ee d) IOError).
        -- unfold on_exception.
           destruct (isinstance (ee d) KeyboardInterrupt); reflexivity.
        -- apply IH.
      * unfold on_exception.
        destruct (isinstance (ee d) KeyboardInterrupt); reflexivity.
    + unfold on_exception.
      destruct (isinstance e KeyboardInterrupt); reflexivity.
Qed.

(** C6.  When a keyboard interrupt reaches the controller of a
    parallel run that has so far gone through the events [pre], the
    run prints the notice, terminates the pool and ends without an
    exception: whatever the pool still held ([rest]) is not looked
    at, and the results yielded and warnings logged are those of
    [pre]. *)
Theorem ParallelRunner_interrupt
    (self : runner) (fnames : list pystr) (fix_ : bool)
    (pre rest : list pool_event) (w w1 : world) :
  collect self fnames fix_ pre w = (w1, Exhausted) ->
  exists w',
    par_run self fnames fix_ (pre ++ Interrupt :: rest) w = (w', ShutDown)
    /\ yielded w' = yielded w1
    /\ dispatched w' = dispatched w1
    /\ log w' = log w1
    /\ stdout w' = stdout w1 ++ [interrupt_message]
    /\ 0 < pool_terminated w'.
Proof.
  intros Hpre. subst par_run. unfold ParallelRunner_run.
  fold collect. rewrite ParallelRunner_collect_app, Hpre.
  subst collect. simpl. eexists. split; [reflexivity |].
  simpl. repeat split. lia.
Qed.

(** ** The error envelope *)

Lemma DelayedException_init_fields exc_info e f :
  ee (DelayedException_init exc_info e f) = e
  /\ tb (DelayedException_init exc_info e f)
     = match exc_info with Some (_, t) => t | None => [] end
  /\ fname (DelayedException_init exc_info e f) = None.
Proof. repeat split. Qed.

Section Transport.
(** Pickling gives back the exception and the frames of the
    traceback: what [pickle] does for an exception and the reducer
    of [tblib] for a traceback. *)
Hypothesis pickled_faithful :
  forall d, ee (pickled d) = ee d /\ tb (pickled d) = tb d.

(** What the controller receives holds the exception and the
    traceback of what the worker returned. *)
Lemma transport_envelope (self : runner) (d : DelayedException) :
  exists d',
    transport pickled self (@inr LintedFile _ d) = inr d'
    /\ ee d' = ee d /\ tb d' = tb d.
Proof.
  unfold transport. destruct (pickled_faithful d) as [He Ht].
  destruct (cls self); eexists; (split; [reflexivity |]);
    split; solve [reflexivity | assumption].
Qed.

(** C3.  A work unit that raises an exception [e] makes [_apply]
    return an envelope that holds [e] and the traceback caught at
    that point, which is not empty.  [reraise] on the envelope, as
    the worker built it or as the controller receives it from a
    thread or from a worker process, raises [e] itself (same class,
    same message) with that traceback under the frame of
    [reraise]. *)
Theorem DelayedException_reraise
    (self : runner) (f : pystr)
    (p : partial RenderedFile RuleSet LintedFile Formatter)
    (e : exn) (t0 : traceback) :
  call_partial p = Raise e t0 ->
  isinstance e Exception = true ->
  exists d,
    _apply (f, p) = Return (inr d)
    /\ ee d = e
    /\ tb d = fr_apply :: t0
    /\ tb d <> []
    /\ reraise d = Raise e (fr_reraise :: tb d)
    /\ exists d',
         transport pickled self (inr d) = inr d'
         /\ reraise d' = Raise e (fr_reraise :: fr_apply :: t0).
Proof.
  intros Hraise Hexc. unfold _apply. rewrite Hraise, Hexc.
  eexists. split; [reflexivity |]. simpl.
  repeat split; try discriminate.
  destruct (transport_envelope self
              (DelayedException_init (Some (e, fr_apply :: t0)) e (Some f)))
    as (d' & Ht & He & Htb).
  exists d'. split; [exact Ht |].
  unfold reraise. now rewrite He, Htb.
Qed.

(** X19.  An I/O error in a parallel run: the envelope comes back, the
    controller raises the exception again and lets it leave the
    run, whose pool is terminated on the way out. *)
Lemma ParallelRunner_io_failure
    (self : runner) (fnames : list pystr) (fix_ : bool)
    (pre rest : list pool_event) (i : nat) (F : pystr)
    (pF : partial RenderedFile RuleSet LintedFile Formatter)
    (e : exn) (t0 : traceback) (w w1 : world) :
  collect self fnames fix_ pre w = (w1, Exhausted) ->
  nth_error fnames i = Some F ->
  iter_partials rendered_config self fix_ F = Return (F, pF) ->
  call_partial pF = Raise e t0 ->
  isinstance e IOError = true ->
  par_run self fnames fix_ (pre ++ Arrives i :: rest) w =
  (do_terminate w1,
   Propagated e
     ([fr_run; fr_handle; fr_run; fr_reraise; fr_apply] ++ t0)).
Proof.
  intros Hpre Hi HF Hraise Hio. subst par_run. unfold ParallelRunner_run.
  fold collect. rewrite ParallelRunner_collect_app, Hpre.
  subst collect. simpl. rewrite Hi, HF.
  unfold _apply. rewrite Hraise, (isinstance_IOError_Exception _ Hio).
  destruct (transport_envelope self
              (DelayedException_init (Some (e, fr_apply :: t0)) e (Some F)))
    as (d' & Ht & He & Htb).
  rewrite Ht. simpl in He, Htb.
  simpl. rewrite He, Htb, (isinstance_IOError_Exception _ Hio).
  unfold _handle_lint_path_exception. rewrite Hio.
  unfold on_exception. now rewrite (isinstance_IOError_not_interrupt _ Hio).
Qed.
End Transport.

(** ** The formatter of a work unit *)


(** ** The choice of a runner *)

(** C4.  [get_runner] gives a sequential runner for [parallel <= 1];
    for [parallel > 1] on an interpreter that supports it, a process
    runner when process parallelism is allowed and a thread runner
    when it is not; for [parallel > 1] on an interpreter that does
    not support it, a sequential runner and one warning.  It always
    returns a runner. *)
Theorem get_runner_choice
    (linter_ : Linter Config RenderedFile RuleSet LintedFile Formatter)
    (config_ : Config) (parallel_ : Z) (allow : bool) (v : version_info) :
  ((parallel_ <= 1)%Z ->
     get_runner linter_ config_ parallel_ (Some allow) v =
     (mk_runner SequentialRunner linter_ config_ None, []))
  /\ ((1 < parallel_)%Z -> version_info_ge v 3 7 = true -> allow = true ->
      get_runner linter_ config_ parallel_ (Some allow) v =
      (mk_runner MultiProcessRunner linter_ config_ (Some parallel_), []))
  /\ ((1 < parallel_)%Z -> version_info_ge v 3 7 = true -> allow = false ->
      get_runner linter_ config_ parallel_ (Some allow) v =
      (mk_runner MultiThreadRunner linter_ config_ (Some parallel_), []))
  /\ ((1 < parallel_)%Z -> version_info_ge v 3 7 = false ->
      get_runner linter_ config_ parallel_ (Some allow) v =
      (mk_runner SequentialRunner linter_ config_ None,
       [warning unsupported_message [major v; minor v]]))
  /\ get_runner linter_ config_ parallel_ None v =
     get_runner linter_ config_ parallel_ (Some true) v.
Proof.
  unfold get_runner. repeat split.
  - intros H. apply Z.ltb_ge in H. now rewrite H.
  - intros H Hv ->. apply Z.ltb_lt in H. now rewrite H, Hv.
  - intros H Hv ->. apply Z.ltb_lt in H. now rewrite H, Hv.
  - intros H Hv. apply Z.ltb_lt in H. now rewrite H, Hv.
Qed.

(** A soft failure in a run with threads: the warning is logged for
    the file name of the envelope, which is [None]. *)
Lemma MultiThreadRunner_soft_failure
    (self : runner) (fnames : list pystr) (fix_ : bool) (i : nat) (F : pystr)
    (pF : partial RenderedFile RuleSet LintedFile Formatter)
    (e : exn) (t0 : traceback) (w : world) :
  cls self = MultiThreadRunner ->
  nth_error fnames i = Some F ->
  iter_partials rendered_config self fix_ F = Return (F, pF) ->
  call_partial pF = Raise e t0 ->
  isinstance e Exception = true ->
  isinstance e IOError = false ->
  collect self fnames fix_ [Arrives i] w =
  (do_log (warning (lint_warning_text None e
                      (fr_run :: fr_reraise :: fr_apply :: t0)) []) w,
   Exhausted).
Proof.
  intros Hcls Hi HF Hraise Hexc Hio. subst collect. simpl.
  rewrite Hi, HF. unfold _apply. rewrite Hraise, Hexc.
  unfold transport. rewrite Hcls. simpl. rewrite Hexc.
  unfold _handle_lint_path_exception. now rewrite Hio.
Qed.

End RunnerFacts.

(** ** Concrete runs *)

(** C1.  [DelayedException(e, fname="bad.sql")] keeps no file name: the
    attribute [fname] is [None].  A run with threads over [a.sql] and
    [bad.sql] therefore logs its warning for [None] and never names
    [bad.sql], where the sequential run names it. *)
Theorem DelayedException_fname_is_None :
  Runner.fname
    (Runner.DelayedException_init
       (Some (Demo.boom, [Runner.fr_apply; str "lint_rendered"]))
       Demo.boom (Some (str "bad.sql"))) = None
  /\ (let w := fst (Runner.ParallelRunner_run Demo.demo_config Demo.demo_path
                      Demo.demo_pickled (Demo.demo_runner Runner.MultiThreadRunner)
                      [str "a.sql"; str "bad.sql"] false
                      [Runner.Arrives 0; Runner.Arrives 1] Demo.demo_world) in
      Runner.yielded w = [str "a.sql"]
      /\ map Runner.msg (Runner.log w) =
         [Runner.lint_warning_text None Demo.boom
            [Runner.fr_run; Runner.fr_reraise; Runner.fr_apply;
             str "lint_rendered"]]
      /\ forallb (fun l => containsb (str "bad.sql") (Runner.msg l))
           (Runner.log w) = false)
  /\ (let w := fst (Runner.SequentialRunner_run Demo.demo_config
                      (Demo.demo_runner Runner.SequentialRunner)
                      [str "a.sql"; str "bad.sql"] false Demo.demo_world) in
      forallb (fun l => containsb (str "bad.sql") (Runner.msg l))
        (Runner.log w) = true).
Proof. repeat split; vm_compute; reflexivity. Qed.


Lemma SequentialRunner_io_failure_witness :
  Runner.SequentialRunner_run Demo.demo_config
    (Demo.demo_runner Runner.SequentialRunner)
    ([str "a.sql"; str "bad.sql"] ++ str "gone.sql" :: [str "b.sql"])
    false Demo.demo_world
  = (fst (Runner.SequentialRunner_run Demo.demo_config
            (Demo.demo_runner Runner.SequentialRunner)
            [str "a.sql"; str "bad.sql"] false Demo.demo_world),
     Runner.Propagated Demo.gone
       [Runner.fr_run; Runner.fr_handle; Runner.fr_run; str "lint_rendered"]).
Proof.
  apply (@SequentialRunner_io_failure unit pystr unit pystr unit
           Demo.demo_config (Demo.demo_runner Runner.SequentialRunner) false
           [str "a.sql"; str "bad.sql"] [str "b.sql"] (str "gone.sql")
           (Demo.demo_partial (str "gone.sql") (Some tt))
           Demo.gone [str "lint_rendered"]); reflexivity.
Defined.

Lemma ParallelRunner_interrupt_witness :
  exists w',
    Runner.ParallelRunner_run Demo.demo_config Demo.demo_path Demo.demo_pickled
      (Demo.demo_runner Runner.MultiProcessRunner)
      [str "a.sql"; str "b.sql"; str "c.sql"] false
      ([Runner.Arrives 1] ++ Runner.Interrupt :: [Runner.Arrives 0; Runner.Arrives 2])
      Demo.demo_world
    = (w', Runner.ShutDown)
    /\ Runner.yielded w' = [str "b.sql"]
    /\ Runner.stdout w' = [Runner.interrupt_message].
Proof.
  destruct (@ParallelRunner_interrupt unit pystr unit pystr unit
              Demo.demo_config Demo.demo_path Demo.demo_pickled
              (Demo.demo_runner Runner.MultiProcessRunner)
              [str "a.sql"; str "b.sql"; str "c.sql"] false
              [Runner.Arrives 1] [Runner.Arrives 0; Runner.Arrives 2]
              Demo.demo_world
              (Runner.do_yield (str "b.sql")
                 (Runner.do_dispatch (str "b.sql", str "b.sql", false)
                    Demo.demo_world)))
    as (w' & Hrun & Hy & _ & _ & Hout & _).
  - reflexivity.
  - exists w'. split; [exact Hrun |]. split; [exact Hy | exact Hout].
Defined.

Lemma DelayedException_reraise_witness :
  exists d d',
    Runner._apply (str "bad.sql", Demo.demo_partial (str "bad.sql") None)
    = Return (inr d)
    /\ Runner.transport Demo.demo_pickled
         (Demo.demo_runner Runner.MultiProcessRunner) (inr d)
       = @inr pystr _ d'
    /\ Runner.reraise d' =
       Raise Demo.boom [Runner.fr_reraise; Runner.fr_apply; str "lint_rendered"].
Proof.
  destruct (@DelayedException_reraise unit pystr unit pystr unit
              Demo.demo_pickled (fun d => conj eq_refl eq_refl)
              (Demo.demo_runner Runner.MultiProcessRunner) (str "bad.sql")
              (Demo.demo_partial (str "bad.sql") None)
              Demo.boom [str "lint_rendered"] eq_refl eq_refl)
    as (d & Happly & _ & _ & _ & _ & d' & Ht & Hr).
  exists d, d'. split; [exact Happly |]. split; [exact Ht | exact Hr].
Defined.



Lemma get_runner_choice_witness :
  Runner.cls (fst (Runner.get_runner Demo.demo_linter tt 1 (Some true) Demo.py39))
  = Runner.SequentialRunner
  /\ Runner.cls (fst (Runner.get_runner Demo.demo_linter tt 4 (Some true) Demo.py39))
     = Runner.MultiProcessRunner
  /\ Runner.cls (fst (Runner.get_runner Demo.demo_linter tt 4 (Some false) Demo.py39))
     = Runner.MultiThreadRunner
  /\ Runner.get_runner Demo.demo_linter tt 4 (Some true) Demo.py36
     = (Runner.mk_runner Runner.SequentialRunner Demo.demo_linter tt None,
        [Runner.warning Runner.unsupported_message [3; 6]%Z]).
Proof.
  split; [| split; [| split]].
  - rewrite (proj1 (get_runner_choice Demo.demo_linter tt 1 true Demo.py39));
      [reflexivity | lia].
  - rewrite (proj1 (proj2 (get_runner_choice Demo.demo_linter tt 4 true Demo.py39)));
      [reflexivity | lia | reflexivity | reflexivity].
  - rewrite (proj1 (proj2 (proj2
               (get_runner_choice Demo.demo_linter tt 4 false Demo.py39))));
      [reflexivity | lia | reflexivity | reflexivity].
  - apply (proj1 (proj2 (proj2 (proj2
             (get_runner_choice Demo.demo_linter tt 4 true Demo.py36)))));
      [lia | reflexivity].
Defined.


(* ===================================================================== *)
(** * More on [repr] and the suffix of a placeholder *)
(* ===================================================================== *)

Section ReprMore.
Import Props.
Variable uprintable : N -> bool.

Lemma hexdigit_visible (d : N) : (d < 16)%N -> visible (hexdigit d) = true.
Proof.
  intros H. unfold visible, hexdigit.
  destruct (N.ltb_spec d 10); apply andb_true_iff; split;
    try (apply N.leb_le; lia); apply negb_true_iff, N.eqb_neq; lia.
Qed.

Lemma hex_fixed_visible (w : nat) (c : N) :
  forallb visible (hex_fixed w c) = true.
Proof.
  revert c. induction w as [|w IH]; intros c; simpl; [reflexivity |].
  rewrite forallb_app, IH. simpl.
  rewrite hexdigit_visible; [reflexivity |].
  apply N.mod_upper_bound. discriminate.
Qed.

Lemma repr_char_visible (q c : N) :
  visible q = true -> forallb visible (repr_char uprintable q c) = true.
Proof.
  intros Hq. unfold repr_char, BACKSLASH.
  destruct ((c =? q) || (c =? 92))%N eqn:E1.
  { apply orb_true_iff in E1 as [E | E]; apply N.eqb_eq in E; subst c.
    - simpl. now rewrite Hq.
    - reflexivity. }
  destruct (c =? 9)%N; [reflexivity |].
  destruct (c =? 10)%N; [reflexivity |].
  destruct (c =? 13)%N; [reflexivity |].
  destruct ((c <? 32) || (c =? 127))%N eqn:E2.
  { cbn [forallb]. rewrite hex_fixed_visible. reflexivity. }
  apply orb_false_iff in E2 as [E3 E4].
  assert (Hc : visible c = true).
  { unfold visible. apply N.ltb_ge in E3. apply N.leb_le in E3.
    now rewrite E3, E4. }
  destruct (c <? 127)%N; [simpl; now rewrite Hc |].
  destruct (uprintable c); [simpl; now rewrite Hc |].
  destruct (c <=? 255)%N; [cbn [forallb]; now rewrite hex_fixed_visible |].
  destruct (c <=? 65535)%N; cbn [forallb]; now rewrite hex_fixed_visible.
Qed.

Lemma repr_quote_cases (s : pystr) :
  repr_quote s = SQUOTE \/ repr_quote s = DQUOTE.
Proof.
  unfold repr_quote.
  destruct (existsb (N.eqb SQUOTE) s && negb (existsb (N.eqb DQUOTE) s)); auto.
Qed.

Lemma flat_map_repr_char_visible (q : N) (s : pystr) :
  visible q = true ->
  forallb visible (flat_map (repr_char uprintable q) s) = true.
Proof.
  intros Hq. induction s as [|c s' IH]; [reflexivity |].
  cbn [flat_map]. rewrite forallb_app, IH, andb_true_r.
  now apply repr_char_visible.
Qed.

Lemma repr_visible (s : pystr) : forallb visible (repr uprintable s) = true.
Proof.
  unfold repr.
  assert (Hq : visible (repr_quote s) = true)
    by (destruct (repr_quote_cases s) as [-> | ->]; reflexivity).
  cbn [forallb]. rewrite Hq, forallb_app. cbn [forallb]. rewrite Hq.
  rewrite andb_true_r. simpl. now apply flat_map_repr_char_visible.
Qed.

(** ** [repr] can be read back *)

Lemma hexdigit_inj (d1 d2 : N) :
  (d1 < 16)%N -> (d2 < 16)%N -> hexdigit d1 = hexdigit d2 -> d1 = d2.
Proof.
  unfold hexdigit. intros H1 H2.
  destruct (N.ltb_spec d1 10), (N.ltb_spec d2 10); lia.
Qed.

Lemma hex_fixed_inj (w : nat) (c1 c2 : N) (r1 r2 : pystr) :
  hex_fixed w c1 ++ r1 = hex_fixed w c2 ++ r2 ->
  (c1 mod 16 ^ N.of_nat w = c2 mod 16 ^ N.of_nat w)%N /\ r1 = r2.
Proof.
  revert c1 c2 r1 r2. induction w as [|w IH]; intros c1 c2 r1 r2 H.
  - simpl in H. split; [now rewrite !N.mod_1_r | exact H].
  - cbn [hex_fixed] in H. rewrite <- !app_assoc in H.
    apply IH in H as [Hm Hr]. cbn [app] in Hr. injection Hr as Hd Hr.
    apply hexdigit_inj in Hd; try (apply N.mod_upper_bound; discriminate).
    split; [| exact Hr].
    rewrite Nat2N.inj_succ, N.pow_succ_r', !N.Div0.mod_mul_r.
    now rewrite Hm, Hd.
Qed.

(** The shapes of what [repr] writes for one character. *)
Lemma repr_char_cases (q c : N) :
  (repr_char uprintable q c = [92; c] /\ (c = q \/ c = 92))%N
  \/ (exists k, repr_char uprintable q c = [92; k]
                /\ (k = 116 /\ c = 9 \/ k = 110 /\ c = 10 \/ k = 114 /\ c = 13))%N
  \/ (repr_char uprintable q c = 92 :: 120 :: hex_fixed 2 c /\ c < 256)%N
  \/ (repr_char uprintable q c = [c] /\ c <> q /\ c <> 92)%N
  \/ (repr_char uprintable q c = 92 :: 117 :: hex_fixed 4 c /\ c < 65536)%N
  \/ (repr_char uprintable q c = 92 :: 85 :: hex_fixed 8 c)%N.
Proof.
  unfold repr_char, BACKSLASH.
  destruct (N.eqb_spec c q) as [Eq | Nq]; [left; auto |].
  destruct (N.eqb_spec c 92) as [Eb | Nb]; [left; auto |]. cbn [orb].
  destruct (N.eqb_spec c 9); [right; left; exists 116%N; auto |].
  destruct (N.eqb_spec c 10); [right; left; exists 110%N; auto |].
  destruct (N.eqb_spec c 13); [right; left; exists 114%N; auto |].
  destruct (N.ltb_spec c 32); [right; right; left; split; [reflexivity | lia] |].
  destruct (N.eqb_spec c 127); [right; right; left; split; [reflexivity | lia] |].
  cbn [orb].
  destruct (N.ltb_spec c 127); [right; right; right; left; auto |].
  destruct (uprintable c); [right; right; right; left; auto |].
  destruct (N.leb_spec c 255); [right; right; left; split; [reflexivity | lia] |].
  destruct (N.leb_spec c 65535);
    [right; right; right; right; left; split; [reflexivity | lia] |].
  right; right; right; right; right. reflexivity.
Qed.

(** What is written for a character never begins with the quote. *)
Lemma repr_char_head (q c : N) (r : pystr) :
  (q = 39 \/ q = 34)%N ->
  exists h t, repr_char uprintable q c ++ r = h :: t /\ h <> q.
Proof.
  intros Hq.
  destruct (repr_char_cases q c)
    as [[E _] | [(k & E & _) | [[E _] | [(E & Nq & _) | [[E _] | E]]]]];
    rewrite E; cbn [app]; eexists; eexists; (split; [reflexivity |]);
    solve [lia | assumption].
Qed.

(** Reading one character back. *)
Lemma repr_char_decode (q c1 c2 : N) (r1 r2 : pystr) :
  (q = 39 \/ q = 34)%N ->
  valid_codepoint c1 = true -> valid_codepoint c2 = true ->
  repr_char uprintable q c1 ++ r1 = repr_char uprintable q c2 ++ r2 ->
  c1 = c2 /\ r1 = r2.
Proof.
  intros Hq V1 V2 H.
  apply N.ltb_lt in V1. apply N.ltb_lt in V2.
  destruct (repr_char_cases q c1)
    as [[E1 A1] | [(k1 & E1 & A1) | [[E1 A1] | [(E1 & A1 & B1) | [[E1 A1] | E1]]]]];
  destruct (repr_char_cases q c2)
    as [[E2 A2] | [(k2 & E2 & A2) | [[E2 A2] | [(E2 & A2 & B2) | [[E2 A2] | E2]]]]];
  rewrite E1, E2 in H; cbn [app] in H;
  try (injection H; intros; subst; split; [lia | reflexivity || assumption]);
  try (injection H; intros; exfalso; lia).
  - apply (f_equal (skipn 2)) in H. cbn [skipn] in H.
    apply hex_fixed_inj in H as [Hm Hr].
    change (16 ^ N.of_nat 2)%N with 256%N in Hm.
    rewrite !N.mod_small in Hm by lia. now split.
  - apply (f_equal (skipn 2)) in H. cbn [skipn] in H.
    apply hex_fixed_inj in H as [Hm Hr].
    change (16 ^ N.of_nat 4)%N with 65536%N in Hm.
    rewrite !N.mod_small in Hm by lia. now split.
  - apply (f_equal (skipn 2)) in H. cbn [skipn] in H.
    apply hex_fixed_inj in H as [Hm Hr].
    change (16 ^ N.of_nat 8)%N with 4294967296%N in Hm.
    rewrite !N.mod_small in Hm by lia. now split.
Qed.

Lemma flat_map_repr_char_decode (q : N) (s1 s2 r1 r2 : pystr) :
  (q = 39 \/ q = 34)%N ->
  valid_str s1 = true -> valid_str s2 = true ->
  flat_map (repr_char uprintable q) s1 ++ q :: r1
  = flat_map (repr_char uprintable q) s2 ++ q :: r2 ->
  s1 = s2 /\ r1 = r2.
Proof.
  intros Hq. revert s2. induction s1 as [|c1 s1 IH]; intros [|c2 s2] V1 V2 H.
  - cbn in H. injection H as H. now split.
  - cbn [flat_map] in H. rewrite <- app_assoc in H. cbn [app] in H.
    destruct (repr_char_head c2
                (flat_map (repr_char uprintable q) s2 ++ q :: r2) Hq)
      as (h & t & E & Nh).
    rewrite E in H. injection H as H _. congruence.
  - cbn [flat_map] in H. rewrite <- app_assoc in H. cbn [app] in H.
    destruct (repr_char_head c1
                (flat_map (repr_char uprintable q) s1 ++ q :: r1) Hq)
      as (h & t & E & Nh).
    rewrite E in H. injection H as H _. congruence.
  - cbn [flat_map] in H. rewrite <- !app_assoc in H.
    unfold valid_str in V1, V2. cbn [forallb] in V1, V2.
    apply andb_true_iff in V1 as [Vc1 V1]. apply andb_true_iff in V2 as [Vc2 V2].
    apply repr_char_decode in H as [-> H]; try assumption.
    apply IH in H as [-> ->]; try assumption. now split.
Qed.

(** Two strings with the same [repr], whatever follows it, are the same
    string. *)
Lemma repr_decode (s1 s2 r1 r2 : pystr) :
  valid_str s1 = true -> valid_str s2 = true ->
  repr uprintable s1 ++ r1 = repr uprintable s2 ++ r2 ->
  s1 = s2 /\ r1 = r2.
Proof.
  intros V1 V2 H. unfold repr in H. cbn [app] in H.
  injection H as Hq H. rewrite <- !app_assoc in H. cbn [app] in H.
  rewrite <- Hq in H.
  apply flat_map_repr_char_decode in H; try assumption.
  destruct (repr_quote_cases s1) as [-> | ->]; [left | right]; reflexivity.
Qed.

End ReprMore.

Section MetaMore.
Import Meta Props.
Variable PositionMarker : Type.
Variable uprintable : N -> bool.

Lemma visible_excludes (l : pystr) (c : N) :
  visible c = false -> forallb visible l = true -> existsb (N.eqb c) l = false.
Proof.
  intros Hc. induction l as [|a l IH]; simpl; [reflexivity |].
  intros H. apply andb_true_iff in H as [Ha Hl].
  rewrite (IH Hl), orb_false_r. apply N.eqb_neq. intros <-. congruence.
Qed.

Lemma suffix_visible (self : segment PositionMarker) :
  forallb visible (_suffix uprintable self) = true.
Proof.
  unfold _suffix. destruct (seg_cls self); try reflexivity.
  unfold TemplateSegment_suffix.
  rewrite !forallb_app, !repr_visible. reflexivity.
Qed.

(** X1.  The suffix of a meta segment, whatever its class and whatever
    text a placeholder keeps, holds no ASCII control character: no line
    break, carriage return or tab, so it stays on the line of the trace
    it is appended to. *)
Theorem suffix_has_no_control_character (self : segment PositionMarker) :
  forallb visible (_suffix uprintable self) = true
  /\ existsb (N.eqb 10) (_suffix uprintable self) = false
  /\ existsb (N.eqb 13) (_suffix uprintable self) = false
  /\ existsb (N.eqb 9) (_suffix uprintable self) = false.
Proof.
  pose proof (suffix_visible self) as H.
  repeat split; try exact H; apply visible_excludes; solve [reflexivity | exact H].
Qed.

(** X2.  The suffix of a placeholder tells its source string and its
    block type: two placeholders built from strings of code points with
    the same suffix keep the same source string and the same block
    type. *)
Theorem suffix_determines_placeholder
    (pm1 pm2 : option PositionMarker) (s1 s2 : pystr) (b1 b2 : option pystr)
    (seg1 seg2 : segment PositionMarker) :
  TemplateSegment_init pm1 (Some s1) b1 = Return seg1 ->
  TemplateSegment_init pm2 (Some s2) b2 = Return seg2 ->
  valid_str s1 = true -> valid_str s2 = true ->
  valid_str (default_str b1) = true -> valid_str (default_str b2) = true ->
  _suffix uprintable seg1 = _suffix uprintable seg2 ->
  source_str seg1 = source_str seg2 /\ block_type seg1 = block_type seg2.
Proof.
  intros H1 H2 Vs1 Vs2 Vb1 Vb2 Hs.
  unfold TemplateSegment_init in H1, H2. cbn [default_str] in H1, H2.
  destruct s1 as [|c1 s1]; [discriminate |].
  destruct s2 as [|c2 s2]; [discriminate |].
  injection H1 as <-. injection H2 as <-.
  unfold _suffix, TemplateSegment_suffix in Hs.
  cbn [seg_cls RawSegment_init source_str block_type] in Hs.
  apply app_inv_head in Hs.
  apply repr_decode in Hs as [Hb Hs]; try assumption.
  apply app_inv_head in Hs.
  apply repr_decode in Hs as [Hsrc _]; try assumption.
  cbn [source_str block_type]. now rewrite Hb, Hsrc.
Qed.

(** X3.  [issubclass] on the classes of the module follows the bases of
    the [class] statements: a class is a subclass of itself and of the
    subclasses' targets of its base.  It is an order (transitive,
    antisymmetric) with [MetaSegment] on top, and a placeholder is never
    taken for an indent. *)
Theorem issubclass_follows_base (c d e : seg_class) :
  issubclass c d =
    (seg_class_eqb c d
     || match base c with Some b => issubclass b d | None => false end)
  /\ issubclass c MetaSegment = true
  /\ (issubclass c d = true -> issubclass d e = true -> issubclass c e = true)
  /\ (issubclass c d = true -> issubclass d c = true -> c = d)
  /\ issubclass TemplateSegment Indent = false
  /\ issubclass Indent Dedent = false.
Proof.
  repeat split; try solve [destruct c, d; reflexivity | destruct c; reflexivity].
  - destruct c, d, e; cbv; congruence.
  - destruct c, d; cbv; congruence.
Qed.

(** X4.  An attribute that a class body does not assign is found in the
    base class; along this chain every class of the module has all five
    attributes, is meta and is not code, and the [type] tag tells the
    classes apart. *)
Theorem getattr_inherits (c c' : seg_class) (a : attr) :
  getattr c a =
    match class_dict c a with
    | Some v => Some v
    | None => match base c with Some b => getattr b a | None => None end
    end
  /\ getattr c a <> None
  /\ getattr c a_is_meta = Some (VBool true)
  /\ getattr c a_is_code = Some (VBool false)
  /\ (getattr c a_type = getattr c' a_type -> c = c').
Proof.
  repeat split; try solve [destruct c, a; reflexivity | destruct c; reflexivity].
  - destruct c, a; discriminate.
  - destruct c, c'; intros H; try reflexivity; vm_compute in H; discriminate.
Qed.

End MetaMore.

Lemma suffix_determines_placeholder_witness :
  Meta.source_str
    {| Meta.seg_cls := Meta.TemplateSegment; Meta.raw := [];
       Meta.pos_marker := Some tt;
       Meta.source_str := Some (str "{{ x }}");
       Meta.block_type := Some (str "templated") |}
  = Some (str "{{ x }}").
Proof.
  refine (eq_trans (eq_sym (proj1
    (@suffix_determines_placeholder unit Demo.ascii_only None (Some tt)
       (str "{{ x }}") (str "{{ x }}") (Some (str "templated"))
       (Some (str "templated")) _ _ eq_refl eq_refl eq_refl eq_refl eq_refl
       eq_refl eq_refl))) eq_refl).
Defined.

Lemma issubclass_follows_base_witness :
  Meta.issubclass Meta.Dedent Meta.MetaSegment = true.
Proof.
  apply (proj1 (proj2 (proj2
           (issubclass_follows_base Meta.Dedent Meta.Indent Meta.MetaSegment))));
    reflexivity.
Defined.

Lemma getattr_inherits_witness : Meta.Indent = Meta.Indent.
Proof.
  apply (proj2 (proj2 (proj2 (proj2
           (getattr_inherits Meta.Indent Meta.Indent Meta.a_type))))).
  reflexivity.
Defined.

(* ===================================================================== *)
(** * More on the runners *)
(* ===================================================================== *)

Section RunnerMore.
Import Runner Props.
Variables Config RenderedFile RuleSet LintedFile Formatter : Type.
Variable rendered_config : RenderedFile -> Config.
Variable linted_path : LintedFile -> pystr.

Let runner := runner Config RenderedFile RuleSet LintedFile Formatter.
Let world := world LintedFile.
Let seq_run := @SequentialRunner_run Config RenderedFile RuleSet LintedFile
                 Formatter rendered_config.

(** What a sequential run may change: it appends results and warnings,
    at most one of either per file. *)
Lemma SequentialRunner_run_shape (self : runner) fix_ fnames (w : world) :
  exists rs ls,
    yielded (fst (seq_run self fnames fix_ w)) = yielded w ++ rs
    /\ log (fst (seq_run self fnames fix_ w)) = log w ++ ls
    /\ stdout (fst (seq_run self fnames fix_ w)) = stdout w
    /\ dispatched (fst (seq_run self fnames fix_ w)) = dispatched w
    /\ pool_terminated (fst (seq_run self fnames fix_ w)) = pool_terminated w
    /\ snd (seq_run self fnames fix_ w) <> ShutDown
    /\ List.length rs + List.length ls <= List.length fnames
    /\ (snd (seq_run self fnames fix_ w) = Exhausted ->
        List.length rs + List.length ls = List.length fnames)
    /\ Forall (fun l => levelname l = str "WARNING") ls.
Proof.
  subst seq_run. revert w. induction fnames as [|f rest IH]; intros w.
  - exists [], []. simpl. rewrite !app_nil_r.
    repeat split; try discriminate; auto.
  - simpl.
    destruct (iter_partials rendered_config self fix_ f) as [[f' p]|e t].
    2:{ exists [], []. simpl. rewrite !app_nil_r.
        repeat split; try discriminate; auto; lia. }
    destruct (call_partial p) as [r|e t0].
    { destruct (IH (do_yield r w))
        as (rs & ls & Hy & Hl & Hs & Hd & Hp & Hn & Hle & Heq & Hw).
      exists (r :: rs), ls. rewrite Hy, Hl, Hs, Hd, Hp. simpl.
      rewrite <- app_assoc. repeat split; auto; try lia.
      all: try (intros E; specialize (Heq E); lia). }
    destruct (isinstance e Exception).
    2:{ exists [], []. simpl. rewrite !app_nil_r.
        repeat split; try discriminate; auto; lia. }
    unfold _handle_lint_path_exception. destruct (isinstance e IOError).
    { exists [], []. simpl. rewrite !app_nil_r.
      repeat split; try discriminate; auto; lia. }
    match goal with
    | |- context [SequentialRunner_run _ _ _ _ (do_log ?l w)] =>
        destruct (IH (do_log l w))
          as (rs & ls & Hy & Hl & Hs & Hd & Hp & Hn & Hle & Heq & Hw);
        exists rs, (l :: ls)
    end.
    rewrite Hy, Hl, Hs, Hd, Hp. simpl. rewrite <- app_assoc.
    repeat split; auto; try lia.
    all: try (intros E; specialize (Heq E); lia).
Qed.

(** X5.  When every work unit returns, the sequential run ends normally,
    yields the results in the order of the file names and logs nothing. *)
Theorem SequentialRunner_yields_in_order
    (self : runner) (fix_ : bool) (fnames : list pystr)
    (rs : pystr -> LintedFile) (w : world) :
  (forall f, In f fnames ->
     exists p, iter_partials rendered_config self fix_ f = Return (f, p)
               /\ call_partial p = Return (rs f)) ->
  exists w',
    seq_run self fnames fix_ w = (w', Exhausted)
    /\ yielded w' = yielded w ++ map rs fnames
    /\ log w' = log w.
Proof.
  intros H. exists (yield_all (map rs fnames) w).
  split; [now apply SequentialRunner_run_all_return |].
  destruct (yield_all_fields (map rs fnames) w) as (Hy & Hl & _). now split.
Qed.

(** X6.  A sequential run only appends to the results and to the log,
    at most one entry per file name, all of them warnings; when it ends
    normally every file name is accounted for by exactly one result or
    one warning. *)
Theorem SequentialRunner_accounts_for_every_file
    (self : runner) (fix_ : bool) (fnames : list pystr) (w w' : world)
    (o : outcome) :
  seq_run self fnames fix_ w = (w', o) ->
  exists rs ls,
    yielded w' = yielded w ++ rs
    /\ log w' = log w ++ ls
    /\ List.length rs + List.length ls <= List.length fnames
    /\ (o = Exhausted -> List.length rs + List.length ls = List.length fnames)
    /\ Forall (fun l => levelname l = str "WARNING") ls.
Proof.
  intros H.
  destruct (SequentialRunner_run_shape self fix_ fnames w)
    as (rs & ls & Hy & Hl & _ & _ & _ & _ & Hle & Heq & Hw).
  rewrite H in Hy, Hl, Heq. simpl in Hy, Hl, Heq.
  exists rs, ls. repeat split; assumption.
Qed.

(** X7.  A sequential run prints nothing, hands nothing to the formatter
    itself, terminates no pool and never ends as a shutdown. *)
Theorem SequentialRunner_is_quiet
    (self : runner) (fix_ : bool) (fnames : list pystr) (w : world) :
  stdout (fst (seq_run self fnames fix_ w)) = stdout w
  /\ dispatched (fst (seq_run self fnames fix_ w)) = dispatched w
  /\ pool_terminated (fst (seq_run self fnames fix_ w)) = pool_terminated w
  /\ snd (seq_run self fnames fix_ w) <> ShutDown.
Proof.
  destruct (SequentialRunner_run_shape self fix_ fnames w)
    as (rs & ls & _ & _ & Hs & Hd & Hp & Hn & _).
  repeat split; assumption.
Qed.


(** X9.  An exception raised while a file is rendered leaves the
    sequential run whatever its class: the [try] statement covers the
    call of the work unit only.  The run stops where it was; the frames
    of the two generators and of [run] are put on the traceback. *)
Theorem SequentialRunner_render_failure
    (self : runner) (fix_ : bool) (pre post : list pystr) (F : pystr)
    (e : exn) (t : traceback) (w w1 : world) :
  seq_run self pre fix_ w = (w1, Exhausted) ->
  render_file (linter self) F (config self) = Raise e t ->
  seq_run self (pre ++ F :: post) fix_ w =
  (w1, Propagated e (fr_run :: fr_iter_partials :: fr_iter_rendered :: t)).
Proof.
  intros Hpre Hr. subst seq_run.
  rewrite SequentialRunner_run_app, Hpre.
  simpl. unfold iter_partials, iter_rendered. now rewrite Hr.
Qed.

(** ** Parallel runs *)

Variable pickled : DelayedException -> DelayedException.

Let collect := @ParallelRunner_collect Config RenderedFile RuleSet LintedFile
                 Formatter rendered_config linted_path pickled.
Let par_run := @ParallelRunner_run Config RenderedFile RuleSet LintedFile
                 Formatter rendered_config linted_path pickled.

(** X10.  The shim [_apply] lets no [Exception] out: when it raises,
    the exception is none (a keyboard interrupt, say); when it returns
    an envelope, the work unit raised the [Exception] in it and the
    envelope holds its traceback under the frame of [_apply]; when it
    returns a result, that is the result of the work unit. *)
Theorem apply_shim_catches_exceptions
    (f : pystr) (p : partial RenderedFile RuleSet LintedFile Formatter) :
  (forall e t, _apply (f, p) = Raise e t -> isinstance e Exception = false)
  /\ (forall d, _apply (f, p) = Return (inr d) ->
        isinstance (ee d) Exception = true
        /\ exists t0, call_partial p = Raise (ee d) t0 /\ tb d = fr_apply :: t0)
  /\ (forall r, _apply (f, p) = Return (inl r) -> call_partial p = Return r).
Proof.
  unfold _apply. destruct (call_partial p) as [r|e t0].
  - split; [discriminate |]. split; [discriminate |].
    intros r' H. now injection H as <-.
  - destruct (isinstance e Exception) eqn:He.
    + split; [discriminate |]. split; [| discriminate].
      intros d H. injection H as <-. split; [exact He |].
      exists t0. now split.
    + split; [| split; discriminate].
      intros e' t' H. now injection H as <- _.
Qed.

Lemma on_exception_shape (e : exn) (t : traceback) (w : world) :
  yielded (fst (on_exception e t w)) = yielded w
  /\ log (fst (on_exception e t w)) = log w
  /\ dispatched (fst (on_exception e t w)) = dispatched w
  /\ match snd (on_exception e t w) with
     | Exhausted => False
     | ShutDown =>
         stdout (fst (on_exception e t w)) = stdout w ++ [interrupt_message]
         /\ pool_terminated (fst (on_exception e t w)) = S (pool_terminated w)
     | Propagated e' _ =>
         isinstance e' KeyboardInterrupt = false
         /\ stdout (fst (on_exception e t w)) = stdout w
         /\ pool_terminated (fst (on_exception e t w)) = pool_terminated w
     end.
Proof.
  unfold on_exception. destruct (isinstance e KeyboardInterrupt) eqn:E; simpl;
    repeat split; assumption.
Qed.

(** One turn of the loop of [ParallelRunner.run]. *)
Lemma ParallelRunner_collect_step (self : runner) fnames fix_ ev rest
    (w : world) :
  (exists i, ev = Arrives i /\ nth_error fnames i = None
             /\ collect self fnames fix_ (ev :: rest) w
                = collect self fnames fix_ rest w)
  \/ (exists i f r,
        ev = Arrives i /\ nth_error fnames i = Some f
        /\ collect self fnames fix_ (ev :: rest) w
           = collect self fnames fix_ rest
               (do_yield r
                  match formatter (linter self) with
                  | Some _ => do_dispatch (linted_path r, r, fix_) w
                  | None => w
                  end))
  \/ (exists i f text,
        ev = Arrives i /\ nth_error fnames i = Some f
        /\ collect self fnames fix_ (ev :: rest) w
           = collect self fnames fix_ rest (do_log (warning text []) w))
  \/ (exists e t,
        collect self fnames fix_ (ev :: rest) w = on_exception e t w).
Proof.
  subst collect. cbn [ParallelRunner_collect].
  destruct ev as [i|]; cbn [pool_next].
  2:{ right; right; right. eexists; eexists; reflexivity. }
  destruct (nth_error fnames i) as [f|] eqn:Hi.
  2:{ left. exists i. auto. }
  destruct (iter_partials rendered_config self fix_ f) as [pt|e t].
  2:{ right; right; right. eexists; eexists; reflexivity. }
  destruct (_apply pt) as [[r|d]|e t].
  - right; left. exists i, f, r.
    assert (Ht : transport pickled self (inl r) = inl r)
      by (unfold transport; destruct (cls self); reflexivity).
    rewrite Ht. auto.
  - assert (Ht : exists d', transport pickled self (@inr LintedFile _ d) = inr d')
      by (unfold transport; destruct (cls self); eexists; reflexivity).
    destruct Ht as [d' Ht]. rewrite Ht. cbn [reraise].
    destruct (isinstance (ee d') Exception).
    + unfold _handle_lint_path_exception.
      destruct (isinstance (ee d') IOError).
      * right; right; right. eexists; eexists; reflexivity.
      * right; right; left. exists i, f. eexists. auto.
    + right; right; right. eexists; eexists; reflexivity.
  - right; right; right. eexists; eexists; reflexivity.
Qed.

Lemma arrivals_cons_some fnames i f rest :
  nth_error fnames i = Some f ->
  arrivals fnames (Arrives i :: rest) = S (arrivals fnames rest).
Proof. intros H. unfold arrivals. cbn [filter]. now rewrite H. Qed.

Lemma arrivals_cons_none fnames i rest :
  nth_error fnames i = None ->
  arrivals fnames (Arrives i :: rest) = arrivals fnames rest.
Proof. intros H. unfold arrivals. cbn [filter]. now rewrite H. Qed.

(** What the loop of a parallel run may change. *)
Lemma ParallelRunner_collect_shape (self : runner) fnames fix_ events
    (w : world) :
  exists rs ls,
    yielded (fst (collect self fnames fix_ events w)) = yielded w ++ rs
    /\ log (fst (collect self fnames fix_ events w)) = log w ++ ls
    /\ dispatched (fst (collect self fnames fix_ events w))
       = dispatched w
         ++ match formatter (linter self) with
            | Some _ => map (fun r => (linted_path r, r, fix_)) rs
            | None => []
            end
    /\ List.length rs + List.length ls <= arrivals fnames events
    /\ match snd (collect self fnames fix_ events w) with
       | Exhausted =>
           stdout (fst (collect self fnames fix_ events w)) = stdout w
           /\ pool_terminated (fst (collect self fnames fix_ events w))
              = pool_terminated w
           /\ List.length rs + List.length ls = arrivals fnames events
       | ShutDown =>
           stdout (fst (collect self fnames fix_ events w))
           = stdout w ++ [interrupt_message]
           /\ pool_terminated (fst (collect self fnames fix_ events w))
              = S (pool_terminated w)
       | Propagated e _ =>
           isinstance e KeyboardInterrupt = false
           /\ stdout (fst (collect self fnames fix_ events w)) = stdout w
           /\ pool_terminated (fst (collect self fnames fix_ events w))
              = pool_terminated w
       end.
Proof.
  revert w. induction events as [|ev rest IH]; intros w.
  - exists [], []. subst collect. simpl. rewrite !app_nil_r.
    destruct (formatter (linter self)); simpl; rewrite ?app_nil_r;
      repeat split; auto.
  - destruct (ParallelRunner_collect_step self fnames fix_ ev rest w)
      as [(i & -> & Hi & Hstep)
         | [(i & f & r & -> & Hi & Hstep)
           | [(i & f & text & -> & Hi & Hstep) | (e & t & Hstep)]]];
      rewrite Hstep.
    + rewrite (@arrivals_cons_none fnames i rest Hi). apply IH.
    + rewrite (@arrivals_cons_some fnames i f rest Hi).
      match goal with
      | |- context [collect self fnames fix_ rest ?w2] =>
          destruct (IH w2) as (rs & ls & Hy & Hl & Hd & Hle & Hm);
          exists (r :: rs), ls; rewrite Hy, Hl, Hd;
          destruct (snd (collect self fnames fix_ rest w2))
      end;
      destruct (formatter (linter self)); simpl; rewrite <- ?app_assoc; simpl;
        repeat split; try tauto; try lia.
    + rewrite (@arrivals_cons_some fnames i f rest Hi).
      match goal with
      | |- context [collect self fnames fix_ rest ?w2] =>
          destruct (IH w2) as (rs & ls & Hy & Hl & Hd & Hle & Hm);
          exists rs, (warning text [] :: ls); rewrite Hy, Hl, Hd;
          destruct (snd (collect self fnames fix_ rest w2))
      end;
      simpl; rewrite <- ?app_assoc; simpl;
        repeat split; try tauto; try lia.
    + destruct (on_exception_shape e t w) as (Hy & Hl & Hd & Hm).
      exists [], []. rewrite Hy, Hl, Hd, !app_nil_r.
      split; [reflexivity |]. split; [reflexivity |].
      split; [destruct (formatter (linter self)); simpl; now rewrite ?app_nil_r |].
      split; [simpl; lia |].
      destruct (snd (on_exception e t w)); [contradiction | exact Hm | exact Hm].
Qed.

(** X11.  A parallel run terminates its pool at least once, however it
    ends and whatever its events: the [with] statement sees to it. *)
Theorem ParallelRunner_always_terminates_pool
    (self : runner) (fnames : list pystr) (fix_ : bool)
    (events : list pool_event) (w : world) :
  pool_terminated w < pool_terminated (fst (par_run self fnames fix_ events w)).
Proof.
  unfold par_run, ParallelRunner_run. fold collect.
  destruct (ParallelRunner_collect_shape self fnames fix_ events w)
    as (rs & ls & _ & _ & _ & _ & Hm).
  destruct (collect self fnames fix_ events w) as [w' o]. simpl in *.
  destruct o; lia.
Qed.

(** X12.  In a parallel run the controller hands to the formatter, when
    the linter has one, exactly the results it yields, in the same
    order and with the [fix] flag as [only_fixable]; without a
    formatter it hands over nothing. *)
Theorem ParallelRunner_dispatches_what_it_yields
    (self : runner) (fnames : list pystr) (fix_ : bool)
    (events : list pool_event) (w : world) :
  exists rs,
    yielded (fst (par_run self fnames fix_ events w)) = yielded w ++ rs
    /\ dispatched (fst (par_run self fnames fix_ events w))
       = dispatched w
         ++ match formatter (linter self) with
            | Some _ => map (fun r => (linted_path r, r, fix_)) rs
            | None => []
            end.
Proof.
  unfold par_run, ParallelRunner_run. fold collect.
  destruct (ParallelRunner_collect_shape self fnames fix_ events w)
    as (rs & ls & Hy & _ & Hd & _).
  destruct (collect self fnames fix_ events w) as [w' o]. simpl in *.
  exists rs. now split.
Qed.

(** X13.  No keyboard interrupt leaves a parallel run, wherever it was
    raised; the notice is printed exactly when the run ends as a
    shutdown, and nothing else is ever printed. *)
Theorem ParallelRunner_interrupt_never_escapes
    (self : runner) (fnames : list pystr) (fix_ : bool)
    (events : list pool_event) (w : world) :
  match snd (par_run self fnames fix_ events w) with
  | Exhausted => stdout (fst (par_run self fnames fix_ events w)) = stdout w
  | ShutDown =>
      stdout (fst (par_run self fnames fix_ events w))
      = stdout w ++ [interrupt_message]
  | Propagated e _ =>
      isinstance e KeyboardInterrupt = false
      /\ stdout (fst (par_run self fnames fix_ events w)) = stdout w
  end.
Proof.
  unfold par_run, ParallelRunner_run. fold collect.
  destruct (ParallelRunner_collect_shape self fnames fix_ events w)
    as (rs & ls & _ & _ & _ & _ & Hm).
  destruct (collect self fnames fix_ events w) as [w' o]. simpl in *.
  destruct o; tauto.
Qed.

(** X14.  A parallel run only appends to the results and to the log, at
    most one entry for each arrival that names a file; when its loop is
    exhausted, every such arrival is accounted for by exactly one result
    or one warning. *)
Theorem ParallelRunner_accounts_for_every_arrival
    (self : runner) (fnames : list pystr) (fix_ : bool)
    (events : list pool_event) (w w' : world) (o : outcome) :
  par_run self fnames fix_ events w = (w', o) ->
  exists rs ls,
    yielded w' = yielded w ++ rs
    /\ log w' = log w ++ ls
    /\ List.length rs + List.length ls <= arrivals fnames events
    /\ (o = Exhausted ->
        List.length rs + List.length ls = arrivals fnames events).
Proof.
  unfold par_run, ParallelRunner_run. fold collect.
  destruct (ParallelRunner_collect_shape self fnames fix_ events w)
    as (rs & ls & Hy & Hl & _ & Hle & Hm).
  destruct (collect self fnames fix_ events w) as [w1 o1]. simpl in *.
  intros H. injection H as <- <-. exists rs, ls. simpl.
  repeat split; try assumption. intros ->. tauto.
Qed.

Lemma files_at_seq (done rest : list pystr) :
  files_at (done ++ rest) (seq (List.length done) (List.length rest)) = rest.
Proof.
  revert done. induction rest as [|f rest IH]; intros done; [reflexivity |].
  cbn [List.length seq]. unfold files_at in *. cbn [flat_map].
  rewrite nth_error_app2, Nat.sub_diag by lia. cbn [nth_error app].
  f_equal. specialize (IH (done ++ [f])).
  rewrite <- app_assoc, length_app in IH. cbn [app List.length] in IH.
  now rewrite Nat.add_1_r in IH.
Qed.

Lemma ParallelRunner_collect_all_return (self : runner) fnames fix_
    (rs : pystr -> LintedFile) (order : list nat) (w : world) :
  (forall f, In f fnames ->
     exists p, iter_partials rendered_config self fix_ f = Return (f, p)
               /\ call_partial p = Return (rs f)) ->
  exists w',
    collect self fnames fix_ (map Arrives order) w = (w', Exhausted)
    /\ yielded w' = yielded w ++ map rs (files_at fnames order)
    /\ log w' = log w.
Proof.
  intros H. revert w. induction order as [|i order IH]; intros w.
  - exists w. subst collect. simpl. now rewrite app_nil_r.
  - subst collect. cbn [map ParallelRunner_collect pool_next].
    unfold files_at. cbn [flat_map]. fold (files_at fnames order).
    destruct (nth_error fnames i) as [f|] eqn:Hi; [| apply IH].
    destruct (H f (nth_error_In _ _ Hi)) as (p & Hp & Hr).
    rewrite Hp. unfold _apply. rewrite Hr.
    assert (Ht : transport pickled self (inl (rs f)) = inl (rs f))
      by (unfold transport; destruct (cls self); reflexivity).
    rewrite Ht.
    match goal with
    | |- context [ParallelRunner_collect _ _ _ _ _ _ _ (do_yield _ ?w1)] =>
        destruct (IH (do_yield (rs f) w1)) as (w' & Hrun & Hy & Hl);
        exists w'; split; [exact Hrun |]; rewrite Hy, Hl;
        assert (Ey : yielded w1 = yielded w /\ log w1 = log w)
          by (destruct (formatter (linter self)); split; reflexivity)
    end.
    destruct Ey as [Ey El]. simpl. rewrite Ey, El, <- app_assoc. now split.
Qed.

(** X15.  When every work unit returns, a parallel run yields the
    results in the order in which they arrive and logs nothing; when
    each file arrives once, in whatever order, the results are those of
    the file names up to their order. *)
Theorem ParallelRunner_yields_in_arrival_order
    (self : runner) (fnames : list pystr) (fix_ : bool)
    (rs : pystr -> LintedFile) (order : list nat) (w : world) :
  (forall f, In f fnames ->
     exists p, iter_partials rendered_config self fix_ f = Return (f, p)
               /\ call_partial p = Return (rs f)) ->
  exists w',
    collect self fnames fix_ (map Arrives order) w = (w', Exhausted)
    /\ yielded w' = yielded w ++ map rs (files_at fnames order)
    /\ log w' = log w
    /\ (Permutation order (seq 0 (List.length fnames)) ->
        Permutation (map rs (files_at fnames order)) (map rs fnames)).
Proof.
  intros H.
  destruct (@ParallelRunner_collect_all_return self fnames fix_ rs order w H)
    as (w' & Hrun & Hy & Hl).
  exists w'. repeat split; try assumption.
  intros Hp. apply Permutation_map.
  rewrite <- (files_at_seq [] fnames) at 2. cbn [List.length app].
  unfold files_at. now apply Permutation_flat_map.
Qed.

(** X16.  The work units of the runner that [get_runner] picks carry
    the formatter of the linter exactly when it picked the sequential
    runner, that is unless [parallel > 1] on an interpreter that
    supports parallel runs. *)
Theorem get_runner_formatter
    (linter_ : Linter Config RenderedFile RuleSet LintedFile Formatter)
    (config_ : Config) (parallel_ : Z) (allow : option bool)
    (v : version_info) (fix_ : bool) (f f' : pystr)
    (p : partial RenderedFile RuleSet LintedFile Formatter) :
  iter_partials rendered_config
    (fst (get_runner linter_ config_ parallel_ allow v)) fix_ f
  = Return (f', p) ->
  p_formatter p =
    if (1 <? parallel_)%Z && version_info_ge v 3 7
    then None else formatter linter_.
Proof.
  intros H. rewrite (iter_partials_formatter _ _ _ _ H).
  unfold get_runner.
  destruct ((1 <? parallel_)%Z && version_info_ge v 3 7); [| reflexivity].
  destruct allow as [[|]|]; reflexivity.
Qed.

Section Faithful.
Hypothesis pickled_faithful :
  forall d, ee (pickled d) = ee d /\ tb (pickled d) = tb d.

(** X17.  In a parallel run, with threads or with processes whose
    pickling is faithful, a work unit that raises an exception other
    than an I/O error does not stop the run: one warning is logged,
    which holds the traceback caught in the worker under the frames of
    [reraise] and [run], and the run goes on with the next event. *)
Theorem ParallelRunner_soft_failure
    (self : runner) (fnames : list pystr) (fix_ : bool)
    (pre rest : list pool_event) (i : nat) (F : pystr)
    (pF : partial RenderedFile RuleSet LintedFile Formatter)
    (e : exn) (t0 : traceback) (w w1 : world) :
  collect self fnames fix_ pre w = (w1, Exhausted) ->
  nth_error fnames i = Some F ->
  iter_partials rendered_config self fix_ F = Return (F, pF) ->
  call_partial pF = Raise e t0 ->
  isinstance e Exception = true ->
  isinstance e IOError = false ->
  exists text,
    collect self fnames fix_ (pre ++ Arrives i :: rest) w
    = collect self fnames fix_ rest (do_log (warning text []) w1)
    /\ contains (format_exc e (fr_run :: fr_reraise :: fr_apply :: t0)) text.
Proof.
  intros Hpre Hi HF Hraise Hexc Hio.
  destruct (@transport_envelope _ _ _ _ _ pickled pickled_faithful self
              (DelayedException_init (Some (e, fr_apply :: t0)) e (Some F)))
    as (d' & Ht & He & Htb).
  cbn [ee tb DelayedException_init] in He, Htb.
  exists (lint_warning_text (fname d') e (fr_run :: fr_reraise :: fr_apply :: t0)).
  split.
  - unfold collect in *. rewrite ParallelRunner_collect_app, Hpre.
    cbn [ParallelRunner_collect pool_next]. rewrite Hi, HF.
    unfold _apply. rewrite Hraise, Hexc, Ht.
    cbn [reraise]. rewrite He, Htb, Hexc.
    unfold _handle_lint_path_exception. now rewrite Hio.
  - unfold lint_warning_text. do 7 apply contains_app_r.
    exists [], []. now rewrite app_nil_r.
Qed.

End Faithful.

Lemma in_order_pool_general (self_s self_p : runner) (fix_ : bool)
    (done rest : list pystr) (w_s w_p : world) :
  linter self_p = linter self_s ->
  config self_p = config self_s ->
  (forall r rs fx fm,
     lint_rendered (linter self_s) r rs fx fm
     = lint_rendered (linter self_s) r rs fx None) ->
  (forall d, ee (pickled d) = ee d) ->
  yielded w_p = yielded w_s ->
  yielded (fst (collect self_p (done ++ rest) fix_
                  (map Arrives (seq (List.length done) (List.length rest))) w_p))
  = yielded (fst (seq_run self_s rest fix_ w_s)).
Proof.
  intros Hl Hc H1 Hee. revert done w_s w_p.
  induction rest as [|f rest IH]; intros done w_s w_p Hy.
  - exact Hy.
  - assert (IH' : forall w_s' w_p', yielded w_p' = yielded w_s' ->
              yielded (fst (collect self_p (done ++ f :: rest) fix_
                              (map Arrives (seq (S (List.length done))
                                              (List.length rest))) w_p'))
              = yielded (fst (seq_run self_s rest fix_ w_s'))).
    { intros w_s' w_p' Hy'. specialize (IH (done ++ [f]) w_s' w_p' Hy').
      rewrite <- app_assoc, length_app in IH. cbn [app List.length] in IH.
      now rewrite Nat.add_1_r in IH. }
    clear IH. unfold collect, seq_run in *.
    cbn [List.length seq map ParallelRunner_collect SequentialRunner_run pool_next].
    rewrite nth_error_app2, Nat.sub_diag by lia. cbn [nth_error].
    unfold iter_partials, iter_rendered. rewrite Hl, Hc.
    destruct (render_file (linter self_s) f (config self_s)) as [rendered|e t].
    2:{ cbn [fst]. destruct (on_exception_shape e
                               (fr_run :: fr_next :: fr_iter_partials
                                :: fr_iter_rendered :: t) w_p) as (E & _).
        now rewrite E. }
    unfold _apply, call_partial.
    cbn [p_func p_rendered p_rule_set p_fix p_formatter].
    rewrite (H1 _ _ _ (if pass_formatter (cls self_p) then _ else _)).
    rewrite (H1 _ _ _ (if pass_formatter (cls self_s) then _ else _)).
    destruct (lint_rendered (linter self_s) rendered
                (get_ruleset (linter self_s) (rendered_config rendered))
                fix_ None) as [r|e t0].
    + assert (Ht : transport pickled self_p (inl r) = inl r)
        by (unfold transport; destruct (cls self_p); reflexivity).
      rewrite Ht. apply IH'.
      destruct (formatter (linter self_s)); simpl; now rewrite Hy.
    + destruct (isinstance e Exception) eqn:Hexc.
      * assert (Ht : exists d',
                   transport pickled self_p
                     (@inr LintedFile _
                        (DelayedException_init (Some (e, fr_apply :: t0)) e (Some f)))
                   = inr d' /\ ee d' = e).
        { unfold transport. destruct (cls self_p); eexists;
            (split; [reflexivity |]); try reflexivity. apply Hee. }
        destruct Ht as (d' & Ht & He). rewrite Ht. cbn [reraise].
        rewrite He, Hexc. unfold _handle_lint_path_exception.
        destruct (isinstance e IOError).
        -- cbn [fst].
           match goal with
           | |- yielded (fst (on_exception ?e1 ?t1 ?w1)) = _ =>
               destruct (on_exception_shape e1 t1 w1) as (E & _); now rewrite E
           end.
        -- apply IH'. simpl. exact Hy.
      * cbn [fst].
        match goal with
        | |- yielded (fst (on_exception ?e1 ?t1 ?w1)) = _ =>
            destruct (on_exception_shape e1 t1 w1) as (E & _); now rewrite E
        end.
Qed.

(** X18.  When linting does not depend on the formatter it is given and
    pickling keeps the exception, a pool that hands its results back in
    the order of submission makes the parallel run yield what the
    sequential run over the same files yields, soft and hard failures
    included. *)
Theorem in_order_pool_matches_sequential
    (self_s self_p : runner) (fix_ : bool) (fnames : list pystr) (w : world) :
  linter self_p = linter self_s ->
  config self_p = config self_s ->
  (forall r rs fx fm,
     lint_rendered (linter self_s) r rs fx fm
     = lint_rendered (linter self_s) r rs fx None) ->
  (forall d, ee (pickled d) = ee d) ->
  yielded (fst (par_run self_p fnames fix_
                  (submission_order (List.length fnames)) w))
  = yielded (fst (seq_run self_s fnames fix_ w)).
Proof.
  intros Hl Hc H1 Hee.
  pose proof (@in_order_pool_general self_s self_p fix_ [] fnames w w
                Hl Hc H1 Hee eq_refl) as H.
  cbn [app List.length] in H. rewrite <- H.
  unfold par_run, ParallelRunner_run, submission_order. fold collect.
  now destruct (collect self_p fnames fix_ (map Arrives (seq 0 (List.length fnames))) w).
Qed.

End RunnerMore.

(** ** Concrete runs of the properties above *)

Lemma SequentialRunner_yields_in_order_witness :
  exists w',
    Runner.SequentialRunner_run Demo.demo_config
      (Demo.demo_runner Runner.SequentialRunner)
      [str "a.sql"; str "b.sql"] true Demo.demo_world = (w', Runner.Exhausted)
    /\ Runner.yielded w' = [str "a.sql"; str "b.sql"].
Proof.
  destruct (SequentialRunner_yields_in_order Demo.demo_config
              (Demo.demo_runner Runner.SequentialRunner) true
              [str "a.sql"; str "b.sql"] (fun f => f) Demo.demo_world)
    as (w' & Hrun & Hy & _).
  - intros f [<- | [<- | []]]; eexists; split; reflexivity.
  - exists w'. split; [exact Hrun | exact Hy].
Defined.

Lemma SequentialRunner_accounts_for_every_file_witness :
  exists (rs : list pystr) (ls : list Runner.log_record),
    rs = [str "a.sql"] /\ List.length ls = 1
    /\ List.length rs + List.length ls = 2.
Proof.
  destruct (SequentialRunner_accounts_for_every_file Demo.demo_config
              (Demo.demo_runner Runner.SequentialRunner) false
              [str "a.sql"; str "bad.sql"] Demo.demo_world
              (w' := fst (Runner.SequentialRunner_run Demo.demo_config
                            (Demo.demo_runner Runner.SequentialRunner)
                            [str "a.sql"; str "bad.sql"] false Demo.demo_world))
              (o := Runner.Exhausted) eq_refl)
    as (rs & ls & Hy & Hl & _ & Heq & _).
  exists rs, ls. cbn in Hy, Hl. subst rs ls.
  split; [reflexivity |]. split; [reflexivity | exact (Heq eq_refl)].
Defined.


Lemma SequentialRunner_render_failure_witness :
  Runner.SequentialRunner_run Demo.demo_config
    (Props.strict_runner Runner.SequentialRunner)
    ([str "a.sql"] ++ str "missing.sql" :: [str "b.sql"]) false Demo.demo_world
  = (Runner.do_yield (str "a.sql") Demo.demo_world,
     Runner.Propagated Props.template_error
       [Runner.fr_run; Runner.fr_iter_partials; Runner.fr_iter_rendered;
        str "render_file"]).
Proof.
  apply (SequentialRunner_render_failure Demo.demo_config
           (Props.strict_runner Runner.SequentialRunner) false
           [str "a.sql"] [str "b.sql"] (str "missing.sql") Demo.demo_world);
    reflexivity.
Defined.

Lemma apply_shim_catches_exceptions_witness :
  isinstance Demo.boom Exception = true
  /\ exists t0,
       Runner.call_partial (Demo.demo_partial (str "bad.sql") None)
       = Raise Demo.boom t0.
Proof.
  destruct (proj1 (proj2 (apply_shim_catches_exceptions (str "bad.sql")
                            (Demo.demo_partial (str "bad.sql") None)))
              (Runner.DelayedException_init
                 (Some (Demo.boom, [Runner.fr_apply; str "lint_rendered"]))
                 Demo.boom (Some (str "bad.sql"))) eq_refl)
    as (He & t0 & Hc & _).
  split; [exact He |]. exists t0. exact Hc.
Defined.

Lemma ParallelRunner_accounts_for_every_arrival_witness :
  exists (rs : list pystr) (ls : list Runner.log_record),
    rs = [str "b.sql"; str "a.sql"] /\ List.length ls = 1
    /\ List.length rs + List.length ls = 3.
Proof.
  destruct (ParallelRunner_accounts_for_every_arrival Demo.demo_config
              Demo.demo_path Demo.demo_pickled
              (Demo.demo_runner Runner.MultiProcessRunner)
              [str "a.sql"; str "bad.sql"; str "b.sql"] false
              [Runner.Arrives 2; Runner.Arrives 7; Runner.Arrives 1;
               Runner.Arrives 0]
              Demo.demo_world
              (w' := fst (Runner.ParallelRunner_run Demo.demo_config
                            Demo.demo_path Demo.demo_pickled
                            (Demo.demo_runner Runner.MultiProcessRunner)
                            [str "a.sql"; str "bad.sql"; str "b.sql"] false
                            [Runner.Arrives 2; Runner.Arrives 7;
                             Runner.Arrives 1; Runner.Arrives 0]
                            Demo.demo_world))
              (o := Runner.Exhausted) eq_refl)
    as (rs & ls & Hy & Hl & _ & Heq).
  exists rs, ls. cbn in Hy, Hl. subst rs ls.
  split; [reflexivity |]. split; [reflexivity | exact (Heq eq_refl)].
Defined.

Lemma ParallelRunner_yields_in_arrival_order_witness :
  exists w',
    Runner.ParallelRunner_collect Demo.demo_config Demo.demo_path
      Demo.demo_pickled (Demo.demo_runner Runner.MultiProcessRunner)
      [str "a.sql"; str "b.sql"] false
      (map Runner.Arrives [1; 0]) Demo.demo_world = (w', Runner.Exhausted)
    /\ Runner.yielded w' = [str "b.sql"; str "a.sql"]
    /\ Permutation [str "b.sql"; str "a.sql"] [str "a.sql"; str "b.sql"].
Proof.
  destruct (ParallelRunner_yields_in_arrival_order Demo.demo_config
              Demo.demo_path Demo.demo_pickled
              (Demo.demo_runner Runner.MultiProcessRunner)
              [str "a.sql"; str "b.sql"] false (fun f => f) [1; 0]
              Demo.demo_world)
    as (w' & Hrun & Hy & _ & Hperm).
  - intros f [<- | [<- | []]]; eexists; split; reflexivity.
  - exists w'. split; [exact Hrun |]. split; [exact Hy |].
    apply Hperm. apply perm_swap.
Defined.

Lemma get_runner_formatter_witness :
  Runner.p_formatter (Demo.demo_partial (str "a.sql") (Some tt)) = Some tt.
Proof.
  apply (get_runner_formatter Demo.demo_config Demo.demo_linter tt 4 None
           Demo.py36 false (str "a.sql") (f' := str "a.sql")).
  reflexivity.
Defined.

Lemma ParallelRunner_soft_failure_witness :
  exists text,
    Runner.ParallelRunner_collect Demo.demo_config Demo.demo_path
      Demo.demo_pickled (Demo.demo_runner Runner.MultiProcessRunner)
      [str "a.sql"; str "bad.sql"; str "b.sql"] false
      ([Runner.Arrives 0] ++ Runner.Arrives 1 :: [Runner.Arrives 2])
      Demo.demo_world
    = Runner.ParallelRunner_collect Demo.demo_config Demo.demo_path
        Demo.demo_pickled (Demo.demo_runner Runner.MultiProcessRunner)
        [str "a.sql"; str "bad.sql"; str "b.sql"] false [Runner.Arrives 2]
        (Runner.do_log (Runner.warning text [])
           (Runner.do_yield (str "a.sql")
              (Runner.do_dispatch (str "a.sql", str "a.sql", false)
                 Demo.demo_world)))
    /\ contains
         (format_exc Demo.boom
            [Runner.fr_run; Runner.fr_reraise; Runner.fr_apply;
             str "lint_rendered"]) text.
Proof.
  apply (ParallelRunner_soft_failure Demo.demo_config Demo.demo_path
           Demo.demo_pickled (fun d => conj eq_refl eq_refl)
           (Demo.demo_runner Runner.MultiProcessRunner)
           [str "a.sql"; str "bad.sql"; str "b.sql"] false
           [Runner.Arrives 0] [Runner.Arrives 2] 1
           (F := str "bad.sql")
           (pF := Demo.demo_partial (str "bad.sql") None)
           Demo.demo_world);
    reflexivity.
Defined.

Lemma in_order_pool_matches_sequential_witness :
  Runner.yielded
    (fst (Runner.ParallelRunner_run Demo.demo_config Demo.demo_path
            Demo.demo_pickled (Demo.demo_runner Runner.MultiThreadRunner)
            [str "a.sql"; str "bad.sql"; str "b.sql"] false
            (Props.submission_order 3) Demo.demo_world))
  = Runner.yielded
      (fst (Runner.SequentialRunner_run Demo.demo_config
              (Demo.demo_runner Runner.SequentialRunner)
              [str "a.sql"; str "bad.sql"; str "b.sql"] false Demo.demo_world)).
Proof.
  apply (in_order_pool_matches_sequential Demo.demo_config Demo.demo_path
           Demo.demo_pickled (Demo.demo_runner Runner.SequentialRunner)
           (Demo.demo_runner Runner.MultiThreadRunner) false
           [str "a.sql"; str "bad.sql"; str "b.sql"] Demo.demo_world);
    reflexivity.
Defined.

Lemma ParallelRunner_io_failure_witness :
  Runner.ParallelRunner_run Demo.demo_config Demo.demo_path Demo.demo_pickled
    (Demo.demo_runner Runner.MultiThreadRunner)
    [str "a.sql"; str "gone.sql"; str "b.sql"] false
    ([Runner.Arrives 0] ++ Runner.Arrives 1 :: [Runner.Arrives 2])
    Demo.demo_world
  = (Runner.do_terminate
       (Runner.do_yield (str "a.sql")
          (Runner.do_dispatch (str "a.sql", str "a.sql", false)
             Demo.demo_world)),
     Runner.Propagated Demo.gone
       ([Runner.fr_run; Runner.fr_handle; Runner.fr_run; Runner.fr_reraise;
         Runner.fr_apply] ++ [str "lint_rendered"])).
Proof.
  apply (ParallelRunner_io_failure Demo.demo_config Demo.demo_path
           Demo.demo_pickled (fun d => conj eq_refl eq_refl)
           (Demo.demo_runner Runner.MultiThreadRunner)
           [str "a.sql"; str "gone.sql"; str "b.sql"] false
           [Runner.Arrives 0] [Runner.Arrives 2] 1
           (F := str "gone.sql")
           (pF := Demo.demo_partial (str "gone.sql") None)
           Demo.demo_world);
    reflexivity.
Defined.

Section RunsCompose.
Import Runner.
Variables Config RenderedFile RuleSet LintedFile Formatter : Type.
Variable rendered_config : RenderedFile -> Config.
Variable linted_path : LintedFile -> pystr.
Variable pickled : DelayedException -> DelayedException.

(** X20.  Runs compose: a sequential run over [pre ++ rest] is the run
    over [pre], carried on over [rest] from where it stands if it went
    through all of [pre], and the same holds of the loop of a parallel
    run for a stream of events.  What a run has yielded and logged for
    the first files does not depend on what comes after them. *)
Theorem runs_compose
    (self : runner Config RenderedFile RuleSet LintedFile Formatter)
    (fix_ : bool) (pre rest fnames : list pystr)
    (evs_pre evs_rest : list pool_event) (w : world LintedFile) :
  SequentialRunner_run rendered_config self (pre ++ rest) fix_ w
  = match SequentialRunner_run rendered_config self pre fix_ w with
    | (w1, Exhausted) => SequentialRunner_run rendered_config self rest fix_ w1
    | r => r
    end
  /\ ParallelRunner_collect rendered_config linted_path pickled self fnames
       fix_ (evs_pre ++ evs_rest) w
     = match ParallelRunner_collect rendered_config linted_path pickled self
               fnames fix_ evs_pre w with
       | (w1, Exhausted) =>
           ParallelRunner_collect rendered_config linted_path pickled self
             fnames fix_ evs_rest w1
       | r => r
       end.
Proof.
  split.
  - apply SequentialRunner_run_app.
  - apply ParallelRunner_collect_app.
Qed.

End RunsCompose.
